(** * Text adventure engine: requirement evaluation, effect application,
      transitions, endings and save slots

    A shallow embedding of [skills/text-adventure-engine/scripts/engine.py].

    The engine is duck-typed Python driven by JSON script data, so the
    embedding keeps script values as JSON values and writes out what the
    Python operators do on each shape of value, including the exception
    they raise.  Mutation of [self.state] is modelled by explicit state
    passing; an exception leaves the state as mutated so far, exactly as
    in-place mutation does. *)

From Stdlib Require Import ZArith Ascii String List Bool Lia.
From stdpp Require Import base option list gmap strings fin_maps.

Local Open Scope Z_scope.
Local Open Scope string_scope.

(** ** JSON values

    What [json.load] produces, with numbers restricted to integers (the
    state's numeric fields are declared [int]; floating point is outside
    the model).  A JSON object is kept as the ordered list of its bindings,
    as a Python [dict] keeps insertion order; [json.load] never produces
    two bindings for one key and lookups take the first binding.  Python's
    [None] is [JNull].  A character of a [str] is one [ascii]. *)

#[warnings="-register-all"]
Inductive json : Type :=
| JNull
| JBool (b : bool)
| JInt (n : Z)
| JStr (s : string)
| JList (l : list json)
| JDict (d : list (string * json)).

(** First binding of a key in an ordered list of bindings. *)
Fixpoint assoc_get {A : Type} (k : string) (d : list (string * A)) : option A :=
  match d with
  | [] => None
  | (k', v) :: d' => if String.eqb k k' then Some v else assoc_get k d'
  end.

(** [bool(v)]: Python truthiness. *)
Definition truthy (v : json) : bool :=
  match v with
  | JNull => false
  | JBool b => b
  | JInt n => negb (Z.eqb n 0)
  | JStr s => negb (String.eqb s "")
  | JList l => match l with [] => false | _ => true end
  | JDict d => match d with [] => false | _ => true end
  end.

(** [a == b] on JSON values.  [bool] is a subclass of [int], so
    [True == 1]; lists compare element by element; dicts compare as
    mappings, whatever the order of their bindings. *)
Fixpoint py_eq (a b : json) {struct a} : bool :=
  match a, b with
  | JNull, JNull => true
  | JBool x, JBool y => Bool.eqb x y
  | JBool x, JInt n => Z.eqb (Z.b2z x) n
  | JInt n, JBool y => Z.eqb n (Z.b2z y)
  | JInt n, JInt m => Z.eqb n m
  | JStr s, JStr t => String.eqb s t
  | JList xs, JList ys =>
      (fix go (xs ys : list json) {struct xs} : bool :=
         match xs, ys with
         | [], [] => true
         | x :: xs', y :: ys' => py_eq x y && go xs' ys'
         | _, _ => false
         end) xs ys
  | JDict xs, JDict ys =>
      Nat.eqb (length xs) (length ys) &&
      (fix go (xs : list (string * json)) {struct xs} : bool :=
         match xs with
         | [] => true
         | (k, v) :: xs' =>
             match assoc_get k ys with
             | Some w => py_eq v w
             | None => false
             end && go xs'
         end) xs
  | _, _ => false
  end.

(** [x in l] for a Python list [l]. *)
Definition py_in_list (x : json) (l : list json) : bool :=
  existsb (py_eq x) l.

(** [l.remove(x)]: drops the first element equal to [x].  The engine only
    calls it after a successful membership test. *)
Fixpoint py_list_remove (x : json) (l : list json) : list json :=
  match l with
  | [] => []
  | y :: l' => if py_eq y x then l' else y :: py_list_remove x l'
  end.

(** [k in s] for two Python strings: substring test. *)
Fixpoint is_substring (k s : string) : bool :=
  String.prefix k s ||
  match s with
  | EmptyString => false
  | String _ s' => is_substring k s'
  end.

(** ** Exceptions and results *)

Inductive exn : Type :=
| TypeError
| ValueError
| KeyError
| AttributeError
| NameError
| IndexError
| OSError
| Untyped.
(** [Untyped] is not a Python exception: it marks a save document whose
    fields do not have the types [GameState] declares, which the typed
    state of this model cannot hold (see [from_dict]). *)

Inductive res (A : Type) : Type :=
| Ok (a : A)
| Raise (e : exn).
Arguments Ok {A} a.
Arguments Raise {A} e.

Definition res_bind {A B : Type} (r : res A) (f : A -> res B) : res B :=
  match r with
  | Ok a => f a
  | Raise e => Raise e
  end.

(** A [bool] or [int] used as a number; anything else is a [TypeError]
    in [+], [<] and [>] against an [int]. *)
Definition as_int (v : json) : res Z :=
  match v with
  | JInt n => Ok n
  | JBool b => Ok (Z.b2z b)
  | _ => Raise TypeError
  end.

(** [k in c] where [k] is a string literal and [c] any JSON value. *)
Definition key_in (k : string) (c : json) : res bool :=
  match c with
  | JDict d => Ok (match assoc_get k d with Some _ => true | None => false end)
  | JList l => Ok (py_in_list (JStr k) l)
  | JStr s => Ok (is_substring k s)
  | JNull | JBool _ | JInt _ => Raise TypeError
  end.

(** [c[k]] where [k] is a string literal: only a dict can be indexed by a
    string. *)
Definition getitem (c : json) (k : string) : res json :=
  match c with
  | JDict d => match assoc_get k d with Some v => Ok v | None => Raise KeyError end
  | _ => Raise TypeError
  end.

(** [iter(v)]: a list yields its elements, a string its characters, a
    dict its keys; the other values are not iterable. *)
Definition py_iter (v : json) : res (list json) :=
  match v with
  | JList l => Ok l
  | JStr s => Ok (map (fun c => JStr (String c EmptyString)) (list_ascii_of_string s))
  | JDict d => Ok (map (fun kv => JStr (fst kv)) d)
  | JNull | JBool _ | JInt _ => Raise TypeError
  end.

(** [a, b = v]: tuple unpacking into exactly two targets. *)
Definition unpack2 (v : json) : res (json * json) :=
  res_bind (py_iter v) (fun l =>
    match l with
    | [a; b] => Ok (a, b)
    | _ => Raise ValueError
    end).

(** [v.items()]: only a dict has the method. *)
Definition py_items (v : json) : res (list (string * json)) :=
  match v with
  | JDict d => Ok d
  | _ => Raise AttributeError
  end.

(** [d.get(k)] on a dict given by its bindings: [None] when absent. *)
Definition dict_get (d : list (string * json)) (k : string) : json :=
  match assoc_get k d with
  | Some v => v
  | None => JNull
  end.

(** Keys of the state's dicts are strings.  Using another JSON value as a
    key ([k in d], [d.get(k)]) needs it hashable: lists and dicts raise
    [TypeError]; [None], booleans and integers are hashable and equal to no
    string. *)
Definition hash_key (k : json) : res (option string) :=
  match k with
  | JStr s => Ok (Some s)
  | JNull | JBool _ | JInt _ => Ok None
  | JList _ | JDict _ => Raise TypeError
  end.

(** ** Player state, script model and engine *)

(** [GameState]: the dataclass, with its declared field types.  Items and
    achievements come straight from script values, so they are JSON values
    compared with [==]; flag values are arbitrary; custom counters are
    integers. *)
Record GameState : Type := mkGameState {
  current_scene : string;
  hp : Z;
  morality : Z;
  size : Z;
  knowledge : Z;
  gold : Z;
  inventory : list json;
  achievements : list json;
  flags : gmap string json;
  history : list string;
  stats : gmap string Z
}.

(** [GameState()]: the dataclass defaults. *)
Definition default_state : GameState :=
  {| current_scene := "start"; hp := 100; morality := 50; size := 100;
     knowledge := 0; gold := 0; inventory := []; achievements := [];
     flags := ∅; history := []; stats := ∅ |}.

(** [Choice]: [requirements], [effects] and the four direct deltas are what
    [choice_data.get(...)] returned, [JNull] standing for [None]. *)
Record Choice : Type := mkChoice {
  text : string;
  next_scene : string;
  requirements : json;
  effects : json;
  morality_change : json;
  knowledge_gain : json;
  gold_change : json;
  hp_change : json
}.

Record Scene : Type := mkScene {
  id : string;
  title : string;
  description : string;
  choices : list Choice;
  image_prompt : json;
  music : json;
  narrator : json;
  on_enter : json
}.

(** The part of [TextAdventureEngine] that is fixed once [__init__] has
    run: the scene table built by [_load_scenes], the declared endings
    ([script.get("endings", [])], each a JSON object given by its bindings),
    [config] and [game_info] (JSON objects given by their bindings). *)
Record Engine : Type := mkEngine {
  scenes : gmap string Scene;
  endings : list (list (string * json));
  config : list (string * json);
  game_info : list (string * json)
}.

(** What [_trigger_hooks] announces.  Registered callbacks are code of the
    caller, not of the engine: they are taken to observe only, and the
    model records each notification, in order. *)
Inductive Event : Type :=
| OnSceneExit (scene : string)
| OnChoice (c : Choice)
| OnSceneEnter (prev cur : string)
| OnSave (slot : string)
| OnLoad (slot : string).

(** Everything the engine's methods can change: the player state, the
    notifications sent so far, and the files of the save directory, as the
    JSON document each file holds.  A file is named here as the file system
    identifies it (see [FileSystem]), not by the path used to reach it. *)
Record World : Type := mkWorld {
  state : GameState;
  events : list Event;
  files : gmap string json
}.

Definition with_state (w : World) (st : GameState) : World :=
  {| state := st; events := events w; files := files w |}.

(** ** The monad of engine methods: state passing with exceptions *)

Definition M (A : Type) : Type := World -> res A * World.

Definition ret {A : Type} (a : A) : M A := fun w => (Ok a, w).

Definition raise {A : Type} (e : exn) : M A := fun w => (Raise e, w).

Definition bind {A B : Type} (m : M A) (f : A -> M B) : M B :=
  fun w =>
    match m w with
    | (Ok a, w') => f a w'
    | (Raise e, w') => (Raise e, w')
    end.

Notation "'let*' x ':=' m 'in' k" := (bind m (fun x => k))
  (at level 10, x pattern, m at level 100, k at level 200).
Notation "m1 '>>' m2" := (bind m1 (fun _ => m2))
  (at level 100, m2 at level 200, right associativity).

(** An expression that only computes. *)
Definition lift {A : Type} (r : res A) : M A := fun w => (r, w).

(** Read [self.state]. *)
Definition get_state : M GameState := fun w => (Ok (state w), w).

(** Mutate [self.state] in place. *)
Definition modify_state (f : GameState -> GameState) : M unit :=
  fun w => (Ok tt, with_state w (f (state w))).

(** [if c: body] *)
Definition when (c : bool) (body : M unit) : M unit :=
  if c then body else ret tt.

(** [for x in l: body(x)] *)
Fixpoint for_each {A : Type} (l : list A) (body : A -> M unit) : M unit :=
  match l with
  | [] => ret tt
  | x :: l' => body x >> for_each l' body
  end.

(** [if k in c: body(c[k])] *)
Definition if_key (k : string) (c : json) (body : json -> M unit) : M unit :=
  let* present := lift (key_in k c) in
  if present then (let* v := lift (getitem c k) in body v) else ret tt.

(** ** Requirement evaluation: [_check_requirements] *)

(** One guarded test of [_check_requirements]:
    [if k in requirements: if not test(requirements[k]): return False].
    The result says whether evaluation goes on to the next test. *)
Definition req_check (k : string) (reqs : json)
    (test : json -> GameState -> res bool) : M bool :=
  let* present := lift (key_in k reqs) in
  if present then
    let* v := lift (getitem reqs k) in
    let* st := get_state in
    lift (test v st)
  else ret true.

(** [c; rest] where a failed [c] is [return False]. *)
Definition and_then (c : M bool) (rest : M bool) : M bool :=
  let* ok := c in
  if ok then rest else ret false.

Notation "c '&>' rest" := (and_then c rest)
  (at level 60, right associativity).

Definition test_has_item (v : json) (st : GameState) : res bool :=
  Ok (py_in_list v (inventory st)).

(** [any(item in inventory for item in v)] *)
Definition test_has_any_item (v : json) (st : GameState) : res bool :=
  res_bind (py_iter v) (fun items =>
    Ok (existsb (fun item => py_in_list item (inventory st)) items)).

(** [all(item in inventory for item in v)] *)
Definition test_has_all_items (v : json) (st : GameState) : res bool :=
  res_bind (py_iter v) (fun items =>
    Ok (forallb (fun item => py_in_list item (inventory st)) items)).

(** [flag_name, flag_value = v], then
    [self.state.flags.get(flag_name) != flag_value] fails the test. *)
Definition test_flag (v : json) (st : GameState) : res bool :=
  res_bind (unpack2 v) (fun '(flag_name, flag_value) =>
    res_bind (hash_key flag_name) (fun key =>
      let got := match key with
                 | Some name => default JNull (flags st !! name)
                 | None => JNull
                 end in
      Ok (py_eq got flag_value))).

(** [k in self.state.flags] *)
Definition in_flags (k : json) (st : GameState) : res bool :=
  res_bind (hash_key k) (fun key =>
    match key with
    | Some name => Ok (bool_decide (is_Some (flags st !! name)))
    | None => Ok false
    end).

Definition test_flag_set (v : json) (st : GameState) : res bool :=
  in_flags v st.

Definition test_flag_not_set (v : json) (st : GameState) : res bool :=
  res_bind (in_flags v st) (fun b => Ok (negb b)).

(** [getattr(self.state, stat) < v] fails the [_min] test. *)
Definition test_min (field : GameState -> Z) (v : json) (st : GameState) : res bool :=
  res_bind (as_int v) (fun bound => Ok (negb (Z.ltb (field st) bound))).

(** [getattr(self.state, stat) > v] fails the [_max] test. *)
Definition test_max (field : GameState -> Z) (v : json) (st : GameState) : res bool :=
  res_bind (as_int v) (fun bound => Ok (negb (Z.gtb (field st) bound))).

(** The stats walked by [for stat in ["morality", "size", "hp",
    "knowledge", "gold"]], each with its [getattr]. *)
Definition range_stats : list (string * (GameState -> Z)) :=
  [("morality", morality); ("size", size); ("hp", hp);
   ("knowledge", knowledge); ("gold", gold)].

Fixpoint stat_range_checks (l : list (string * (GameState -> Z)))
    (reqs : json) (rest : M bool) : M bool :=
  match l with
  | [] => rest
  | (stat, field) :: l' =>
      req_check (stat +:+ "_min") reqs (test_min field) &>
      req_check (stat +:+ "_max") reqs (test_max field) &>
      stat_range_checks l' reqs rest
  end.

(** [stat_name, min_value = v], then
    [self.state.stats.get(stat_name, 0) < min_value] fails the test. *)
Definition test_stat_min (v : json) (st : GameState) : res bool :=
  res_bind (unpack2 v) (fun '(stat_name, min_value) =>
    res_bind (hash_key stat_name) (fun key =>
      let got := match key with
                 | Some name => default 0 (stats st !! name)
                 | None => 0
                 end in
      res_bind (as_int min_value) (fun bound => Ok (negb (Z.ltb got bound))))).

Definition test_has_achievement (v : json) (st : GameState) : res bool :=
  Ok (py_in_list v (achievements st)).

(** [if "visited_scene" in requirements:
       if not any(req in h for h in self.state.history): return False].
    The name [req] is bound nowhere (not in the method, the module or the
    builtins), so evaluating [req in h] for the first history entry raises
    [NameError]; with an empty history the generator yields nothing, [any]
    is [False] and the method returns [False].  [requirements["visited_scene"]]
    is never read. *)
Definition check_visited_scene (reqs : json) : M bool :=
  let* present := lift (key_in "visited_scene" reqs) in
  if present then
    let* st := get_state in
    match history st with
    | [] => ret false
    | _ :: _ => raise NameError
    end
  else ret true.

Definition check_requirements (reqs : json) : M bool :=
  if negb (truthy reqs) then ret true
  else
    req_check "has_item" reqs test_has_item &>
    req_check "has_any_item" reqs test_has_any_item &>
    req_check "has_all_items" reqs test_has_all_items &>
    req_check "flag" reqs test_flag &>
    req_check "flag_set" reqs test_flag_set &>
    req_check "flag_not_set" reqs test_flag_not_set &>
    stat_range_checks range_stats reqs (
      req_check "stat_min" reqs test_stat_min &>
      req_check "has_achievement" reqs test_has_achievement &>
      check_visited_scene reqs &>
      ret true).

(** [self.scenes.get(self.state.current_scene)] *)
Definition get_current_scene (eng : Engine) : M (option Scene) :=
  let* st := get_state in
  ret (scenes eng !! current_scene st).

(** The loop of [get_available_choices]. *)
Fixpoint filter_choices (cs : list Choice) : M (list Choice) :=
  match cs with
  | [] => ret []
  | c :: cs' =>
      let* ok := check_requirements (requirements c) in
      let* rest := filter_choices cs' in
      ret (if ok then c :: rest else rest)
  end.

Definition get_available_choices (eng : Engine) : M (list Choice) :=
  let* scene := get_current_scene eng in
  match scene with
  | None => ret []
  | Some sc => filter_choices (choices sc)
  end.

(** ** Effect application: [_apply_effects] *)

Definition set_current_scene (v : string) (st : GameState) : GameState :=
  mkGameState v (hp st) (morality st) (size st) (knowledge st) (gold st)
    (inventory st) (achievements st) (flags st) (history st) (stats st).
Definition set_hp (v : Z) (st : GameState) : GameState :=
  mkGameState (current_scene st) v (morality st) (size st) (knowledge st) (gold st)
    (inventory st) (achievements st) (flags st) (history st) (stats st).
Definition set_morality (v : Z) (st : GameState) : GameState :=
  mkGameState (current_scene st) (hp st) v (size st) (knowledge st) (gold st)
    (inventory st) (achievements st) (flags st) (history st) (stats st).
Definition set_size (v : Z) (st : GameState) : GameState :=
  mkGameState (current_scene st) (hp st) (morality st) v (knowledge st) (gold st)
    (inventory st) (achievements st) (flags st) (history st) (stats st).
Definition set_knowledge (v : Z) (st : GameState) : GameState :=
  mkGameState (current_scene st) (hp st) (morality st) (size st) v (gold st)
    (inventory st) (achievements st) (flags st) (history st) (stats st).
Definition set_gold (v : Z) (st : GameState) : GameState :=
  mkGameState (current_scene st) (hp st) (morality st) (size st) (knowledge st) v
    (inventory st) (achievements st) (flags st) (history st) (stats st).
Definition set_inventory (v : list json) (st : GameState) : GameState :=
  mkGameState (current_scene st) (hp st) (morality st) (size st) (knowledge st) (gold st)
    v (achievements st) (flags st) (history st) (stats st).
Definition set_achievements (v : list json) (st : GameState) : GameState :=
  mkGameState (current_scene st) (hp st) (morality st) (size st) (knowledge st) (gold st)
    (inventory st) v (flags st) (history st) (stats st).
Definition set_flags (v : gmap string json) (st : GameState) : GameState :=
  mkGameState (current_scene st) (hp st) (morality st) (size st) (knowledge st) (gold st)
    (inventory st) (achievements st) v (history st) (stats st).
Definition set_history (v : list string) (st : GameState) : GameState :=
  mkGameState (current_scene st) (hp st) (morality st) (size st) (knowledge st) (gold st)
    (inventory st) (achievements st) (flags st) v (stats st).
Definition set_stats (v : gmap string Z) (st : GameState) : GameState :=
  mkGameState (current_scene st) (hp st) (morality st) (size st) (knowledge st) (gold st)
    (inventory st) (achievements st) (flags st) (history st) v.

(** [max(0, min(100, x))] *)
Definition clamp100 (x : Z) : Z := Z.max 0 (Z.min 100 x).

(** [if item not in self.state.inventory: self.state.inventory.append(item)] *)
Definition add_to_inventory (item : json) : M unit :=
  let* st := get_state in
  when (negb (py_in_list item (inventory st)))
    (modify_state (fun st => set_inventory (inventory st ++ [item]) st)).

(** [if a not in self.state.achievements: self.state.achievements.append(a)] *)
Definition grant_achievement (a : json) : M unit :=
  let* st := get_state in
  when (negb (py_in_list a (achievements st)))
    (modify_state (fun st => set_achievements (achievements st ++ [a]) st)).

(** [for hook in self.hooks.get(event, []): hook(...)] *)
Definition trigger_hooks (ev : Event) : M unit :=
  fun w => (Ok tt, {| state := state w; events := events w ++ [ev]; files := files w |}).

Section WithBuiltinInt.

(** Python's builtin [int] applied to a [str]: the integer the string
    denotes, or [None] where [int] raises [ValueError]. *)
Variable int_of_str : string -> option Z.

(** [_check_knowledge_achievements]: [int(threshold)] is evaluated first
    for every milestone, so a key that is no integer literal raises. *)
Definition check_knowledge_achievements (eng : Engine) : M unit :=
  let milestones := default (JDict []) (assoc_get "knowledge_milestones" (config eng)) in
  let* items := lift (py_items milestones) in
  for_each items (fun '(threshold, achievement) =>
    let* t := lift (match int_of_str threshold with
                    | Some n => Ok n
                    | None => Raise ValueError
                    end) in
    let* st := get_state in
    when (Z.geb (knowledge st) t && negb (py_in_list achievement (achievements st)))
      (modify_state (fun st => set_achievements (achievements st ++ [achievement]) st))).

(** [# Item management] *)
Definition effects_items (effects : json) : M unit :=
  if_key "add_item" effects add_to_inventory >>
  if_key "add_items" effects (fun v =>
    let* items := lift (py_iter v) in
    for_each items add_to_inventory) >>
  if_key "remove_item" effects (fun item =>
    let* st := get_state in
    when (py_in_list item (inventory st))
      (modify_state (fun st => set_inventory (py_list_remove item (inventory st)) st))).

(** [# Stat changes] *)
Definition effects_stats (eng : Engine) (effects : json) : M unit :=
  if_key "hp_change" effects (fun v =>
    let* st := get_state in
    let* d := lift (as_int v) in
    modify_state (set_hp (clamp100 (hp st + d)))) >>
  if_key "morality_change" effects (fun v =>
    let* st := get_state in
    let* d := lift (as_int v) in
    modify_state (set_morality (clamp100 (morality st + d)))) >>
  if_key "size_change" effects (fun v =>
    let* st := get_state in
    let* d := lift (as_int v) in
    modify_state (set_size (clamp100 (size st + d)))) >>
  if_key "gold_change" effects (fun v =>
    let* st := get_state in
    let* d := lift (as_int v) in
    modify_state (set_gold (Z.max 0 (gold st + d)))) >>
  if_key "knowledge_gain" effects (fun v =>
    let* st := get_state in
    let* d := lift (as_int v) in
    modify_state (set_knowledge (knowledge st + d)) >>
    check_knowledge_achievements eng).

(** [# Custom stat changes] *)
Definition effects_custom_stats (effects : json) : M unit :=
  if_key "stat_change" effects (fun v =>
    let* items := lift (py_items v) in
    for_each items (fun '(stat, value) =>
      let* st := get_state in
      let* d := lift (as_int value) in
      modify_state (fun st => set_stats (<[stat := default 0 (stats st !! stat) + d]> (stats st)) st))).

(** [# Flag management] *)
Definition effects_flags (effects : json) : M unit :=
  if_key "set_flag" effects (fun v =>
    let* items := lift (py_items v) in
    for_each items (fun '(flag, value) =>
      modify_state (fun st => set_flags (<[flag := value]> (flags st)) st))) >>
  if_key "clear_flag" effects (fun flag =>
    let* st := get_state in
    let* key := lift (hash_key flag) in
    match key with
    | Some name =>
        when (bool_decide (is_Some (flags st !! name)))
          (modify_state (fun st => set_flags (delete name (flags st)) st))
    | None => ret tt
    end).

(** [# Achievement management] *)
Definition effects_achievements (effects : json) : M unit :=
  if_key "add_achievement" effects grant_achievement.

(** [# Special effects]: only the presence of the key is looked at. *)
Definition effects_special (effects : json) : M unit :=
  (let* present := lift (key_in "game_over" effects) in
   when present (modify_state (set_current_scene "game_over"))) >>
  (let* present := lift (key_in "victory" effects) in
   when present (modify_state (set_current_scene "victory"))).

Definition apply_effects (eng : Engine) (effects : json) : M unit :=
  effects_items effects >>
  effects_stats eng effects >>
  effects_custom_stats effects >>
  effects_flags effects >>
  effects_achievements effects >>
  effects_special effects.

(** ** Transition: [make_choice] *)

(** [x is not None] *)
Definition is_not_none (v : json) : bool :=
  match v with
  | JNull => false
  | _ => true
  end.

(** The direct stat changes of a choice, after its effects. *)
Definition direct_changes (eng : Engine) (choice : Choice) : M unit :=
  when (is_not_none (morality_change choice)) (
    let* st := get_state in
    let* d := lift (as_int (morality_change choice)) in
    modify_state (set_morality (clamp100 (morality st + d)))) >>
  when (is_not_none (knowledge_gain choice)) (
    let* st := get_state in
    let* d := lift (as_int (knowledge_gain choice)) in
    modify_state (set_knowledge (knowledge st + d)) >>
    check_knowledge_achievements eng) >>
  when (is_not_none (gold_change choice)) (
    let* st := get_state in
    let* d := lift (as_int (gold_change choice)) in
    modify_state (set_gold (Z.max 0 (gold st + d)))) >>
  when (is_not_none (hp_change choice)) (
    let* st := get_state in
    let* d := lift (as_int (hp_change choice)) in
    modify_state (set_hp (clamp100 (hp st + d)))).

(** Everything [make_choice] does once the index is accepted. *)
Definition take_choice (eng : Engine) (choice : Choice) : M bool :=
  let* st := get_state in
  modify_state (fun st =>
    set_history (history st ++ [current_scene st +:+ ":" +:+ text choice]) st) >>
  trigger_hooks (OnSceneExit (current_scene st)) >>
  when (truthy (effects choice)) (apply_effects eng (effects choice)) >>
  direct_changes eng choice >>
  trigger_hooks (OnChoice choice) >>
  let* st := get_state in
  let prev_scene := current_scene st in
  modify_state (set_current_scene (next_scene choice)) >>
  let* scene := get_current_scene eng in
  match scene with
  | Some sc => when (truthy (on_enter sc)) (apply_effects eng (on_enter sc))
  | None => ret tt
  end >>
  let* st := get_state in
  trigger_hooks (OnSceneEnter prev_scene (current_scene st)) >>
  ret true.

Definition make_choice (eng : Engine) (choice_index : Z) : M bool :=
  let* available := get_available_choices eng in
  if Z.ltb choice_index 0 || Z.geb choice_index (Z.of_nat (length available))
  then ret false
  else
    match available !! Z.to_nat choice_index with
    | Some choice => take_choice eng choice
    | None => raise IndexError
    end.

End WithBuiltinInt.

(** ** Rendering: [render_scene] *)

(** The dict [render_scene] returns for a scene that exists.  The lists
    and the counter dict in it are the state's own objects, not copies. *)
Record SceneView : Type := mkSceneView {
  view_title : string;
  view_description : string;
  view_choices : list (Z * string);
  view_hp : Z;
  view_morality : Z;
  view_size : Z;
  view_knowledge : Z;
  view_gold : Z;
  view_inventory : list json;
  view_achievements : list json;
  view_stats : gmap string Z;
  view_image_prompt : json;
  view_music : json;
  view_narrator : json
}.

Inductive Rendered : Type :=
| SceneNotFound
| SceneShown (v : SceneView).

(** [[{"index": i, "text": c.text} for i, c in enumerate(cs)]] *)
Fixpoint index_choices (i : Z) (cs : list Choice) : list (Z * string) :=
  match cs with
  | [] => []
  | c :: cs' => (i, text c) :: index_choices (i + 1) cs'
  end.

Definition render_scene (eng : Engine) : M Rendered :=
  let* scene := get_current_scene eng in
  match scene with
  | None => ret SceneNotFound
  | Some sc =>
      let* available := get_available_choices eng in
      let* st := get_state in
      ret (SceneShown
        {| view_title := title sc;
           view_description := description sc;
           view_choices := index_choices 0 available;
           view_hp := hp st;
           view_morality := morality st;
           view_size := size st;
           view_knowledge := knowledge st;
           view_gold := gold st;
           view_inventory := inventory st;
           view_achievements := achievements st;
           view_stats := stats st;
           view_image_prompt := image_prompt sc;
           view_music := music sc;
           view_narrator := narrator sc |})
  end.

(** ** Ending resolution: [get_ending] *)

(** The first loop of [get_ending]: an ending is looked at only when
    [ending.get("requirements")] is truthy. *)
Fixpoint special_ending (es : list (list (string * json))) :
    M (option (list (string * json))) :=
  match es with
  | [] => ret None
  | ending :: es' =>
      if truthy (dict_get ending "requirements") then
        let* reqs := lift (getitem (JDict ending) "requirements") in
        let* ok := check_requirements reqs in
        if ok then ret (Some ending) else special_ending es'
      else special_ending es'
  end.

(** [next((e for e in endings if e.get("tier") == tier), None)] *)
Definition first_of_tier (tier : string) (es : list (list (string * json))) :
    option (list (string * json)) :=
  List.find (fun e => py_eq (dict_get e "tier") (JStr tier)) es.

(** The tier the morality bands select. *)
Definition morality_tier (m : Z) : string :=
  if Z.geb m 80 then "perfect"
  else if Z.geb m 60 then "good"
  else if Z.geb m 40 then "neutral"
  else "bad".

Definition get_ending (eng : Engine) : M (option (list (string * json))) :=
  let* special := special_ending (endings eng) in
  match special with
  | Some ending => ret (Some ending)
  | None =>
      let* st := get_state in
      ret (first_of_tier (morality_tier (morality st)) (endings eng))
  end.

(** ** Save slots: [save_game], [load_game] *)

(** [GameState.to_dict], that is [dataclasses.asdict]: a fresh JSON object
    with one binding per field, in field order. *)
Definition to_dict (st : GameState) : json :=
  JDict [
    ("current_scene", JStr (current_scene st));
    ("hp", JInt (hp st));
    ("morality", JInt (morality st));
    ("size", JInt (size st));
    ("knowledge", JInt (knowledge st));
    ("gold", JInt (gold st));
    ("inventory", JList (inventory st));
    ("achievements", JList (achievements st));
    ("flags", JDict (map_to_list (flags st)));
    ("history", JList (map JStr (history st)));
    ("stats", JDict (map (fun kv => (fst kv, JInt (snd kv))) (map_to_list (stats st))))
  ].

Definition field_names : list string :=
  ["current_scene"; "hp"; "morality"; "size"; "knowledge"; "gold";
   "inventory"; "achievements"; "flags"; "history"; "stats"].

Definition decode_str (v : json) : res string :=
  match v with
  | JStr s => Ok s
  | _ => Raise Untyped
  end.

Definition decode_int (v : json) : res Z :=
  match v with
  | JInt n => Ok n
  | _ => Raise Untyped
  end.

Fixpoint decode_all {A B : Type} (f : A -> res B) (l : list A) : res (list B) :=
  match l with
  | [] => Ok []
  | x :: l' =>
      res_bind (f x) (fun y =>
      res_bind (decode_all f l') (fun ys => Ok (y :: ys)))
  end.

Definition decode_list (v : json) : res (list json) :=
  match v with
  | JList l => Ok l
  | _ => Raise Untyped
  end.

Definition decode_strs (v : json) : res (list string) :=
  match v with
  | JList l => decode_all decode_str l
  | _ => Raise Untyped
  end.

Definition decode_flags (v : json) : res (gmap string json) :=
  match v with
  | JDict d => Ok (list_to_map d)
  | _ => Raise Untyped
  end.

Definition decode_stats (v : json) : res (gmap string Z) :=
  match v with
  | JDict d =>
      res_bind (decode_all (fun kv => res_bind (decode_int (snd kv))
                                        (fun n => Ok (fst kv, n))) d)
        (fun l => Ok (list_to_map l))
  | _ => Raise Untyped
  end.

(** One keyword argument of the constructor call that unpacks [data]: the
    stored value, or the dataclass default when the key is absent. *)
Definition field_or {A : Type} (d : list (string * json)) (k : string)
    (dflt : A) (decode : json -> res A) : res A :=
  match assoc_get k d with
  | Some v => decode v
  | None => Ok dflt
  end.

(** [GameState.from_dict]: the constructor is called with [data]
    unpacked into keyword arguments, so [data] must be a
    mapping whose keys are all field names ([TypeError] otherwise); absent
    fields take their defaults.  Python stores whatever value a key has;
    the typed state here holds it only when it has the declared type, and
    the outcome is [Untyped] otherwise. *)
Definition from_dict (data : json) : res GameState :=
  match data with
  | JDict d =>
      if forallb (fun kv => existsb (String.eqb (fst kv)) field_names) d then
        res_bind (field_or d "current_scene" (current_scene default_state) decode_str) (fun f1 =>
        res_bind (field_or d "hp" (hp default_state) decode_int) (fun f2 =>
        res_bind (field_or d "morality" (morality default_state) decode_int) (fun f3 =>
        res_bind (field_or d "size" (size default_state) decode_int) (fun f4 =>
        res_bind (field_or d "knowledge" (knowledge default_state) decode_int) (fun f5 =>
        res_bind (field_or d "gold" (gold default_state) decode_int) (fun f6 =>
        res_bind (field_or d "inventory" (inventory default_state) decode_list) (fun f7 =>
        res_bind (field_or d "achievements" (achievements default_state) decode_list) (fun f8 =>
        res_bind (field_or d "flags" (flags default_state) decode_flags) (fun f9 =>
        res_bind (field_or d "history" (history default_state) decode_strs) (fun f10 =>
        res_bind (field_or d "stats" (stats default_state) decode_stats) (fun f11 =>
        Ok (mkGameState f1 f2 f3 f4 f5 f6 f7 f8 f9 f10 f11))))))))))))
      else Raise TypeError
  | _ => Raise TypeError
  end.

(** What [pathlib] and the operating system do with
    [self.save_dir / name], which is no code of the engine:
    - [path_str name] is [str(self.save_dir / name)], the path the engine
      returns;
    - [file_of name] is the file this path denotes, or [None] when it can
      denote no file (a missing parent directory, as for the slot "a/b");
      two names can denote one file, as "./a.json" and "a.json" do;
    - [writable name] says whether [open(path, 'w')] succeeds there. *)
Record FileSystem : Type := mkFileSystem {
  path_str : string -> string;
  file_of : string -> option string;
  writable : string -> bool
}.

(** [with open(save_file, 'w') as f: json.dump(save_data, f)]: [open]
    raises [OSError] (one of its subclasses) when the file cannot be
    opened for writing; the values of the model are all serializable, so
    [json.dump] itself does not raise. *)
Definition write_file (fs : FileSystem) (name : string) (doc : json) : M unit :=
  fun w =>
    match file_of fs name with
    | Some f =>
        if writable fs name
        then (Ok tt, {| state := state w; events := events w;
                        files := <[f := doc]> (files w) |})
        else (Raise OSError, w)
    | None => (Raise OSError, w)
    end.

(** [save_game]; [now] is what [datetime.now().isoformat()] returns. *)
Definition save_game (fs : FileSystem) (eng : Engine) (slot_name : string)
    (now : string) : M string :=
  trigger_hooks (OnSave slot_name) >>
  let save_file := slot_name +:+ ".json" in
  let* st := get_state in
  let save_data := JDict [
    ("game_info", JDict (game_info eng));
    ("state", to_dict st);
    ("timestamp", JStr now);
    ("version", default (JStr "2.0") (assoc_get "version" (game_info eng)))
  ] in
  write_file fs save_file save_data >>
  ret (path_str fs save_file).

(** [load_game]: [save_file.exists()] is false when the path denotes no
    file or the file is not there; [json.load] gives back the stored
    document. *)
Definition load_game (fs : FileSystem) (eng : Engine) (slot_name : string) : M bool :=
  let save_file := slot_name +:+ ".json" in
  fun w =>
    match file_of fs save_file with
    | None => (Ok false, w)
    | Some f =>
        match files w !! f with
        | None => (Ok false, w)
        | Some save_data =>
            (let* data := lift (getitem save_data "state") in
             let* st := lift (from_dict data) in
             modify_state (fun _ => st) >>
             trigger_hooks (OnLoad slot_name) >>
             ret true) w
        end
    end.

(** ** Building the scene table: [_load_scenes] *)

(** [Choice(text=choice_data["text"], next_scene=choice_data["next_scene"],
    requirements=choice_data.get("requirements"), ...)].  The two indexed
    fields are declared [str]; Python stores whatever value is there, the
    typed record holds it only when it is a string ([Untyped] otherwise). *)
Definition load_choice (choice_data : json) : res Choice :=
  res_bind (res_bind (getitem choice_data "text") decode_str) (fun t =>
  res_bind (res_bind (getitem choice_data "next_scene") decode_str) (fun next =>
  let d := match choice_data with JDict d => d | _ => [] end in
  Ok {| text := t; next_scene := next;
        requirements := dict_get d "requirements";
        effects := dict_get d "effects";
        morality_change := dict_get d "morality_change";
        knowledge_gain := dict_get d "knowledge_gain";
        gold_change := dict_get d "gold_change";
        hp_change := dict_get d "hp_change" |})).

(** One round of the outer loop: the choices first, then the [Scene]. *)
Definition load_scene (scene_data : json) : res Scene :=
  match scene_data with
  | JDict d =>
      res_bind (py_iter (default (JList []) (assoc_get "choices" d))) (fun choice_list =>
      res_bind (decode_all load_choice choice_list) (fun cs =>
      res_bind (res_bind (getitem scene_data "id") decode_str) (fun i =>
      res_bind (res_bind (getitem scene_data "title") decode_str) (fun t =>
      res_bind (res_bind (getitem scene_data "description") decode_str) (fun descr =>
      Ok {| id := i; title := t; description := descr; choices := cs;
            image_prompt := dict_get d "image_prompt";
            music := dict_get d "music";
            narrator := dict_get d "narrator";
            on_enter := dict_get d "on_enter" |})))))
  | _ => Raise AttributeError
  end.

(** [self.scenes[scene_data["id"]] = Scene(...)] for each scene in turn. *)
Fixpoint load_scenes_from (l : list json) (table : gmap string Scene) :
    res (gmap string Scene) :=
  match l with
  | [] => Ok table
  | scene_data :: l' =>
      res_bind (load_scene scene_data) (fun sc =>
        load_scenes_from l' (<[id sc := sc]> table))
  end.

(** [_load_scenes] on the script given by its bindings.  An exception
    leaves [__init__], so no engine with a partial table comes to exist. *)
Definition load_scenes (script : list (string * json)) : res (gmap string Scene) :=
  res_bind (py_iter (default (JList []) (assoc_get "scenes" script))) (fun l =>
    load_scenes_from l ∅).

(** ** Notions used to state the properties *)

(** [m] keeps the property [P] of the world, whether it returns or raises. *)
Definition preserves {A : Type} (P : World -> Prop) (m : M A) : Prop :=
  forall w, P w -> P (snd (m w)).

(** [m] never changes the world. *)
Definition readonly {A : Type} (m : M A) : Prop :=
  forall w, snd (m w) = w.

(** Every key [_check_requirements] looks for. *)
Definition recognized_keys : list string :=
  ["has_item"; "has_any_item"; "has_all_items"; "flag"; "flag_set"; "flag_not_set";
   "morality_min"; "morality_max"; "size_min"; "size_max"; "hp_min"; "hp_max";
   "knowledge_min"; "knowledge_max"; "gold_min"; "gold_max";
   "stat_min"; "has_achievement"; "visited_scene"].

(** No key of the requirement set is a recognized one. *)
Definition all_unrecognized (d : list (string * json)) : bool :=
  forallb (fun kv => negb (existsb (String.eqb (fst kv)) recognized_keys)) d.

(** A value that is a single scalar and cannot be unpacked. *)
Definition is_plain_scalar (v : json) : bool :=
  match v with
  | JNull | JBool _ | JInt _ => true
  | _ => false
  end.

(** The [historyContains(substring)] predicate as the specification words
    it: some history entry contains the substring. *)
Definition history_contains (s : string) (st : GameState) : bool :=
  existsb (is_substring s) (history st).

(** A fresh game: default state, nothing announced, empty save directory. *)
Definition fresh_world : World :=
  {| state := default_state; events := []; files := ∅ |}.

(** A world one step into a game: one history entry. *)
Definition visited_world : World :=
  with_state fresh_world (set_history ["start:Open the door"] default_state).

(** The ranges the data model gives the clamped stats and gold. *)
Definition stats_in_range (st : GameState) : Prop :=
  0 <= hp st <= 100 /\ 0 <= morality st <= 100 /\ 0 <= size st <= 100 /\ 0 <= gold st.

(** The integer an effect set adds to knowledge, when it has a
    'knowledge_gain' that is a number. *)
Definition knowledge_delta (effects : json) : option Z :=
  match res_bind (getitem effects "knowledge_gain") as_int with
  | Ok d => Some d
  | Raise _ => None
  end.

(** [isinstance(v, dict)] *)
Definition is_dict (v : json) : bool :=
  match v with
  | JDict _ => true
  | _ => false
  end.

(** A small script for the examples: two scenes, the second with entry
    effects that end the game, and one knowledge milestone. *)
Definition demo_engine : Engine :=
  {| scenes :=
       {[ "start" :=
            {| id := "start"; title := "The gate"; description := "A locked gate.";
               choices :=
                 [ {| text := "Open the door"; next_scene := "hall";
                      requirements := JDict [("has_item", JStr "key")];
                      effects := JNull; morality_change := JNull;
                      knowledge_gain := JNull; gold_change := JNull; hp_change := JNull |};
                   {| text := "Climb the wall"; next_scene := "pit";
                      requirements := JNull;
                      effects := JDict [("hp_change", JInt (-20)); ("victory", JBool true)];
                      morality_change := JInt 10;
                      knowledge_gain := JNull; gold_change := JNull; hp_change := JNull |} ];
               image_prompt := JNull; music := JStr "tense"; narrator := JNull;
               on_enter := JNull |};
          "pit" :=
            {| id := "pit"; title := "The pit"; description := "You fell.";
               choices := [];
               image_prompt := JNull; music := JNull; narrator := JNull;
               on_enter := JDict [("game_over", JBool true)] |} ]};
     endings := [];
     config := [("knowledge_milestones", JDict [("10", JStr "Scholar")])];
     game_info := [("title", JStr "Demo"); ("version", JStr "1.0")] |}.

(** [int] on the milestone keys of the demo script. *)
Definition demo_int (s : string) : option Z :=
  if String.eqb s "10" then Some 10 else None.

(** The scene an effect set leaves as current when it is applied to the
    end with [s] current: 'victory' wins over 'game_over', and without
    either the scene stays [s]. *)
Definition final_jump (effects : json) (s : string) : string :=
  match key_in "victory" effects with
  | Ok true => "victory"
  | _ =>
      match key_in "game_over" effects with
      | Ok true => "game_over"
      | _ => s
      end
  end.

(** The current scene after a transition to [next]: [next] itself, unless
    the scene of that name has entry effects with a terminal jump. *)
Definition scene_after_entry (eng : Engine) (next : string) : string :=
  match scenes eng !! next with
  | Some sc => if truthy (on_enter sc) then final_jump (on_enter sc) next else next
  | None => next
  end.

(** "The requirements of the ending evaluate true against the current
    state", the Requirement Evaluator being [_check_requirements] on what
    the ending has under 'requirements'. *)
Definition requirements_hold (w : World) (e : list (string * json)) : bool :=
  match fst (check_requirements (dict_get e "requirements") w) with
  | Ok true => true
  | _ => false
  end.

(** Ending resolution as the specification words it: the first declared
    ending whose requirements evaluate true and, if there is none, the
    first ending of the tier the morality bands select. *)
Definition claimed_ending (eng : Engine) (w : World) : option (list (string * json)) :=
  match List.find (requirements_hold w) (endings eng) with
  | Some e => Some e
  | None => first_of_tier (morality_tier (morality (state w))) (endings eng)
  end.

(** The ending declares a requirement set that is not empty. *)
Definition declares_requirements (e : list (string * json)) : bool :=
  truthy (dict_get e "requirements").

(** Ending resolution with the guard of the code: only endings that
    declare a non-empty requirement set take part in the first pass. *)
Definition guarded_ending (eng : Engine) (w : World) : option (list (string * json)) :=
  match List.find (fun e => declares_requirements e && requirements_hold w e) (endings eng) with
  | Some e => Some e
  | None => first_of_tier (morality_tier (morality (state w))) (endings eng)
  end.

(** Endings for the examples: one gated on an item, two found by tier. *)
Definition demo_endings : list (list (string * json)) :=
  [ [("title", JStr "Keeper of the key");
     ("requirements", JDict [("has_item", JStr "key")])];
    [("title", JStr "A quiet end"); ("requirements", JDict []); ("tier", JStr "bad")];
    [("title", JStr "Triumph"); ("tier", JStr "perfect")] ].

Definition endings_engine : Engine :=
  {| scenes := ∅; endings := demo_endings; config := []; game_info := [] |}.

(** A world late in a game: morality 90, no items. *)
Definition saintly_world : World :=
  with_state fresh_world (set_morality 90 default_state).

(** ** Notions used to state further properties *)

(** The updates of the player state that the transition code performs,
    each in the shape the code has it, and the sending of a notification.
    A property of the world closed under all of them is kept by every
    method that applies effects. *)
Record step_closed (P : World -> Prop) : Prop := mkStepClosed {
  closed_add_item : forall w x, P w ->
    py_in_list x (inventory (state w)) = false ->
    P (with_state w (set_inventory (inventory (state w) ++ [x]) (state w)));
  closed_remove_item : forall w x, P w ->
    py_in_list x (inventory (state w)) = true ->
    P (with_state w (set_inventory (py_list_remove x (inventory (state w))) (state w)));
  closed_grant : forall w a, P w ->
    py_in_list a (achievements (state w)) = false ->
    P (with_state w (set_achievements (achievements (state w) ++ [a]) (state w)));
  closed_hp : forall w d, P w ->
    P (with_state w (set_hp (clamp100 (hp (state w) + d)) (state w)));
  closed_morality : forall w d, P w ->
    P (with_state w (set_morality (clamp100 (morality (state w) + d)) (state w)));
  closed_size : forall w d, P w ->
    P (with_state w (set_size (clamp100 (size (state w) + d)) (state w)));
  closed_gold : forall w d, P w ->
    P (with_state w (set_gold (Z.max 0 (gold (state w) + d)) (state w)));
  closed_knowledge : forall w d, P w ->
    P (with_state w (set_knowledge (knowledge (state w) + d) (state w)));
  closed_stat : forall w k d, P w ->
    P (with_state w (set_stats (<[k := default 0 (stats (state w) !! k) + d]> (stats (state w)))
                       (state w)));
  closed_set_flag : forall w k v, P w ->
    P (with_state w (set_flags (<[k := v]> (flags (state w))) (state w)));
  closed_clear_flag : forall w k, P w ->
    is_Some (flags (state w) !! k) ->
    P (with_state w (set_flags (delete k (flags (state w))) (state w)));
  closed_scene : forall w s, P w ->
    P (with_state w (set_current_scene s (state w)));
  closed_event : forall w ev, P w ->
    P {| state := state w; events := events w ++ [ev]; files := files w |}
}.

(** The history entry [make_choice] records for a choice. *)
Definition history_entry (w : World) (c : Choice) : string :=
  current_scene (state w) +:+ ":" +:+ text c.

(** A list built by appending only elements that were not yet [in] it:
    no element repeats an earlier one. *)
Inductive no_repeats : list json -> Prop :=
| no_repeats_nil : no_repeats []
| no_repeats_snoc (l : list json) (x : json) :
    no_repeats l -> py_in_list x l = false -> no_repeats (l ++ [x]).




(** The guarded tests of [_check_requirements], each with its key, in the
    order the method makes them; the 'visited_scene' test stands apart. *)
Definition requirement_tests : list (string * (json -> GameState -> res bool)) :=
  [("has_item", test_has_item);
   ("has_any_item", test_has_any_item);
   ("has_all_items", test_has_all_items);
   ("flag", test_flag);
   ("flag_set", test_flag_set);
   ("flag_not_set", test_flag_not_set);
   ("morality_min", test_min morality); ("morality_max", test_max morality);
   ("size_min", test_min size); ("size_max", test_max size);
   ("hp_min", test_min hp); ("hp_max", test_max hp);
   ("knowledge_min", test_min knowledge); ("knowledge_max", test_max knowledge);
   ("gold_min", test_min gold); ("gold_max", test_max gold);
   ("stat_min", test_stat_min);
   ("has_achievement", test_has_achievement)].

(** The requirement set [d] does not have the key of the test, or the
    test succeeds on the value it has there. *)
Definition test_passes (d : list (string * json)) (st : GameState)
    (kt : string * (json -> GameState -> res bool)) : Prop :=
  forall v, assoc_get (fst kt) d = Some v -> snd kt v st = Ok true.

(** The requirements of the choice evaluate to true. *)
Definition requirement_met (w : World) (c : Choice) : bool :=
  match fst (check_requirements (requirements c) w) with
  | Ok true => true
  | _ => false
  end.

(** A script whose opening scene has a plain choice and one gated on
    'visited_scene'. *)
Definition return_choice : Choice :=
  {| text := "Go back"; next_scene := "start";
     requirements := JDict [("visited_scene", JStr "start")];
     effects := JNull; morality_change := JNull;
     knowledge_gain := JNull; gold_change := JNull; hp_change := JNull |}.

Definition onward_choice : Choice :=
  {| text := "Go on"; next_scene := "start";
     requirements := JNull;
     effects := JDict [("add_item", JStr "map")]; morality_change := JNull;
     knowledge_gain := JInt 10; gold_change := JNull; hp_change := JNull |}.

Definition crossroads : Scene :=
  {| id := "start"; title := "Crossroads"; description := "Two ways.";
     choices := [onward_choice; return_choice];
     image_prompt := JNull; music := JNull; narrator := JNull; on_enter := JNull |}.

Definition crossroads_engine : Engine :=
  {| scenes := {[ "start" := crossroads ]};
     endings := [];
     config := [("knowledge_milestones", JDict [("10", JStr "Scholar")])];
     game_info := [] |}.

(** Every key [_apply_effects] looks for. *)
Definition effect_keys : list string :=
  ["add_item"; "add_items"; "remove_item";
   "hp_change"; "morality_change"; "size_change"; "gold_change"; "knowledge_gain";
   "stat_change"; "set_flag"; "clear_flag"; "add_achievement"; "game_over"; "victory"].

(** No key of the effect set is one of them. *)
Definition no_effect_key (d : list (string * json)) : bool :=
  forallb (fun kv => negb (existsb (String.eqb (fst kv)) effect_keys)) d.

(** The body of the loop of [_check_knowledge_achievements], for one
    milestone. *)
Definition milestone_step (ios : string -> option Z) (kv : string * json) : M unit :=
  let '(threshold, achievement) := kv in
  let* t := lift (match ios threshold with
                  | Some n => Ok n
                  | None => Raise ValueError
                  end) in
  let* st := get_state in
  when (Z.geb (knowledge st) t && negb (py_in_list achievement (achievements st)))
    (modify_state (fun st => set_achievements (achievements st ++ [achievement]) st)).

(** The achievement of every milestone is a string. *)
Definition string_valued (items : list (string * json)) : Prop :=
  forall t a, In (t, a) items -> exists s, a = JStr s.

(** A script that declares the scene "camp" twice. *)
Definition demo_script : list (string * json) :=
  [("scenes", JList [
      JDict [("id", JStr "camp"); ("title", JStr "Camp"); ("description", JStr "A cold camp.");
             ("choices", JList [JDict [("text", JStr "Sleep"); ("next_scene", JStr "camp")]])];
      JDict [("id", JStr "road"); ("title", JStr "Road"); ("description", JStr "A long road.")];
      JDict [("id", JStr "camp"); ("title", JStr "Camp"); ("description", JStr "A warm camp.");
             ("on_enter", JDict [("hp_change", JInt 5)])] ])].

(** ["./"] at the head of a name is dropped when the path is built. *)
Definition strip_dot_slash (name : string) : string :=
  match name with
  | String "."%char (String "/"%char rest) => rest
  | _ => name
  end.

(** There is a ["/"] in the name. *)
Fixpoint has_slash (name : string) : bool :=
  match name with
  | EmptyString => false
  | String c rest => Ascii.eqb c "/"%char || has_slash rest
  end.

(** A save directory "saves" without subdirectories, for the examples:
    a leading "./" does not change the file, a name that leads into a
    subdirectory denotes no file, and every file can be written. *)
Definition demo_fs : FileSystem :=
  {| path_str := fun name => "saves/" +:+ strip_dot_slash name;
     file_of := fun name =>
       if has_slash (strip_dot_slash name) then None else Some (strip_dot_slash name);
     writable := fun _ => true |}.

(** A world in which the flag "a" holds the string "b". *)
Definition flagged_world : World :=
  with_state fresh_world (set_flags {[ "a" := JStr "b" ]} default_state).

(** A script whose opening scene has one choice, gated on a 'flag'
    requirement that is the number 5. *)
Definition gated_engine : Engine :=
  {| scenes :=
       {[ "start" :=
            {| id := "start"; title := "Gate"; description := "A gate.";
               choices :=
                 [ {| text := "Enter"; next_scene := "start";
                      requirements := JDict [("flag", JInt 5)];
                      effects := JNull; morality_change := JNull;
                      knowledge_gain := JNull; gold_change := JNull; hp_change := JNull |} ];
               image_prompt := JNull; music := JNull; narrator := JNull;
               on_enter := JNull |} ]};
     endings := []; config := []; game_info := [] |}.

(** * Properties *)

(** ** Reasoning about the monad *)

Lemma bind_ok {A B : Type} (m : M A) (f : A -> M B) (w w' : World) (a : A) :
  m w = (Ok a, w') -> bind m f w = f a w'.
Proof. intros H. unfold bind. now rewrite H. Qed.

Lemma preserves_ret {A : Type} (P : World -> Prop) (a : A) : preserves P (ret a).
Proof. intros w H. exact H. Qed.

Lemma preserves_raise {A : Type} (P : World -> Prop) (e : exn) :
  preserves P (@raise A e).
Proof. intros w H. exact H. Qed.

Lemma preserves_lift {A : Type} (P : World -> Prop) (r : res A) :
  preserves P (lift r).
Proof. intros w H. exact H. Qed.

Lemma preserves_get_state (P : World -> Prop) : preserves P get_state.
Proof. intros w H. exact H. Qed.

Lemma preserves_bind {A B : Type} (P : World -> Prop) (m : M A) (f : A -> M B) :
  preserves P m -> (forall a, preserves P (f a)) -> preserves P (bind m f).
Proof.
  intros Hm Hf w Hw. unfold bind.
  specialize (Hm w Hw). destruct (m w) as [[a | e] w1]; simpl in *.
  - now apply Hf.
  - exact Hm.
Qed.

(** The same, remembering in the continuation what [m] returned. *)
Lemma preserves_bind_lift {A B : Type} (P : World -> Prop) (r : res A) (f : A -> M B) :
  (forall a, r = Ok a -> preserves P (f a)) -> preserves P (bind (lift r) f).
Proof.
  intros Hf w Hw. unfold bind, lift. destruct r as [a | e]; simpl.
  - now apply Hf.
  - exact Hw.
Qed.

Lemma preserves_bind_state {B : Type} (P : World -> Prop) (f : GameState -> M B) :
  (forall w, P w -> P (snd (f (state w) w))) -> preserves P (bind get_state f).
Proof. intros Hf w Hw. unfold bind, get_state. now apply Hf. Qed.

Lemma preserves_when (P : World -> Prop) (c : bool) (body : M unit) :
  preserves P body -> preserves P (when c body).
Proof. intros H. destruct c; simpl; [exact H | apply preserves_ret]. Qed.

Lemma preserves_for_each {A : Type} (P : World -> Prop) (l : list A) (body : A -> M unit) :
  (forall x, preserves P (body x)) -> preserves P (for_each l body).
Proof.
  intros H. induction l as [| x l IH]; simpl.
  - apply preserves_ret.
  - apply preserves_bind; [apply H | intros _; exact IH].
Qed.

Lemma preserves_if_key (P : World -> Prop) (k : string) (c : json) (body : json -> M unit) :
  (forall v, getitem c k = Ok v -> preserves P (body v)) ->
  preserves P (if_key k c body).
Proof.
  intros H. unfold if_key. apply preserves_bind_lift. intros [|] _.
  - apply preserves_bind_lift. exact H.
  - apply preserves_ret.
Qed.

Lemma preserves_modify (P : World -> Prop) (f : GameState -> GameState) :
  (forall w, P w -> P (with_state w (f (state w)))) -> preserves P (modify_state f).
Proof. intros H w Hw. simpl. now apply H. Qed.

Lemma readonly_preserves {A : Type} (m : M A) :
  (forall w0, preserves (fun w => w = w0) m) -> readonly m.
Proof. intros H w. now apply (H w w). Qed.

Lemma req_check_readonly (k : string) (reqs : json) test :
  forall w0, preserves (fun w => w = w0) (req_check k reqs test).
Proof.
  intros w0. unfold req_check. apply preserves_bind_lift. intros [|] _.
  - apply preserves_bind_lift. intros v _.
    apply preserves_bind; [apply preserves_get_state | intros st; apply preserves_lift].
  - apply preserves_ret.
Qed.

Lemma and_then_preserves (P : World -> Prop) (c rest : M bool) :
  preserves P c -> preserves P rest -> preserves P (c &> rest).
Proof.
  intros Hc Hr. unfold and_then. apply preserves_bind; [exact Hc |].
  intros [|]; [exact Hr | apply preserves_ret].
Qed.

Lemma check_visited_scene_readonly (reqs : json) :
  forall w0, preserves (fun w => w = w0) (check_visited_scene reqs).
Proof.
  intros w0. unfold check_visited_scene. apply preserves_bind_lift. intros [|] _.
  - apply preserves_bind_state. intros w Hw.
    destruct (history (state w)); exact Hw.
  - apply preserves_ret.
Qed.

Lemma check_requirements_readonly (reqs : json) : readonly (check_requirements reqs).
Proof.
  apply readonly_preserves. intros w0. unfold check_requirements.
  destruct (negb (truthy reqs)); [apply preserves_ret |].
  simpl stat_range_checks.
  repeat (apply and_then_preserves;
          [first [apply req_check_readonly | apply check_visited_scene_readonly] |]).
  apply preserves_ret.
Qed.

Lemma filter_choices_readonly (cs : list Choice) : readonly (filter_choices cs).
Proof.
  apply readonly_preserves. intros w0.
  induction cs as [| c cs IH]; simpl.
  - apply preserves_ret.
  - apply preserves_bind.
    + intros w Hw. subst. apply check_requirements_readonly.
    + intros ok. apply preserves_bind; [exact IH | intros rest; apply preserves_ret].
Qed.

Lemma get_available_choices_readonly (eng : Engine) :
  readonly (get_available_choices eng).
Proof.
  intros w. cbv [get_available_choices bind get_current_scene get_state ret].
  destruct (scenes eng !! current_scene (state w)); [| reflexivity].
  apply filter_choices_readonly.
Qed.

(** ** Requirement evaluation *)

Lemma unrecognized_absent (d : list (string * json)) (k : string) :
  all_unrecognized d = true -> In k recognized_keys -> assoc_get k d = None.
Proof.
  intros Hd Hk. induction d as [| [k' v] d IH]; [reflexivity |].
  change (negb (existsb (String.eqb k') recognized_keys) && all_unrecognized d = true) in Hd.
  apply andb_prop in Hd as [Hk' Hd].
  change (assoc_get k ((k', v) :: d)) with
    (if String.eqb k k' then Some v else assoc_get k d).
  destruct (String.eqb_spec k k') as [-> | Hne]; [| now apply IH].
  exfalso. apply negb_true_iff in Hk'.
  assert (Hex : existsb (String.eqb k') recognized_keys = true).
  { apply existsb_exists. exists k'. split; [exact Hk | apply String.eqb_refl]. }
  congruence.
Qed.

Lemma req_check_absent (k : string) (d : list (string * json)) test (rest : M bool) (w : World) :
  assoc_get k d = None -> (req_check k (JDict d) test &> rest) w = rest w.
Proof.
  intros H. cbv [and_then req_check bind lift key_in ret]. now rewrite H.
Qed.

Lemma check_visited_scene_absent (d : list (string * json)) (rest : M bool) (w : World) :
  assoc_get "visited_scene" d = None -> (check_visited_scene (JDict d) &> rest) w = rest w.
Proof.
  intros H. cbv [and_then check_visited_scene bind lift key_in ret]. now rewrite H.
Qed.

(** C5: a requirement set whose keys are all unrecognized evaluates to
    true, without raising and without touching the state. *)
Theorem unknown_keys_ignored (d : list (string * json)) (w : World) :
  all_unrecognized d = true ->
  check_requirements (JDict d) w = (Ok true, w).
Proof.
  intros Hd. unfold check_requirements.
  destruct (negb (truthy (JDict d))); [reflexivity |].
  simpl stat_range_checks.
  rewrite !req_check_absent by (apply unrecognized_absent; [exact Hd | simpl; tauto]).
  rewrite check_visited_scene_absent by (apply unrecognized_absent; [exact Hd | simpl; tauto]).
  reflexivity.
Qed.

Lemma unknown_keys_ignored_witness :
  check_requirements (JDict [("mood", JStr "cheerful"); ("weather", JInt 3)]) fresh_world
  = (Ok true, fresh_world).
Proof. apply unknown_keys_ignored. reflexivity. Defined.

Lemma and_then_tail_not_true (c rest : M bool) :
  (forall w, fst (rest w) <> Ok true) ->
  forall w, fst ((c &> rest) w) <> Ok true.
Proof.
  intros H w. unfold and_then, bind.
  destruct (c w) as [[[|] | e] w1]; simpl; [apply H | discriminate | discriminate].
Qed.

Lemma flag_scalar_raises (d : list (string * json)) (v : json) (rest : M bool) (w : World) :
  assoc_get "flag" d = Some v -> is_plain_scalar v = true ->
  (req_check "flag" (JDict d) test_flag &> rest) w = (Raise TypeError, w).
Proof.
  intros Hget Hv.
  cbv [and_then req_check bind lift key_in getitem ret get_state]. rewrite Hget.
  destruct v; try discriminate Hv; reflexivity.
Qed.

Lemma bound_key_truthy (d : list (string * json)) (k : string) (v : json) :
  assoc_get k d = Some v -> truthy (JDict d) = true.
Proof. destruct d; [discriminate | reflexivity]. Qed.

(** A 'flag' requirement given a scalar that cannot be iterated (null, a
    boolean, an integer) never evaluates to true, but it does not evaluate
    to false either: once the flag test is reached, that is when no item
    test comes before it, evaluation raises [TypeError] and leaves the state
    alone. *)
Lemma scalar_flag_never_granted (d : list (string * json)) (v : json) (w : World) :
  assoc_get "flag" d = Some v ->
  is_plain_scalar v = true ->
  fst (check_requirements (JDict d) w) <> Ok true /\
  (assoc_get "has_item" d = None ->
   assoc_get "has_any_item" d = None ->
   assoc_get "has_all_items" d = None ->
   check_requirements (JDict d) w = (Raise TypeError, w)).
Proof.
  intros Hget Hv. unfold check_requirements.
  rewrite (bound_key_truthy d "flag" v Hget). change (negb true) with false. cbv iota.
  split.
  - revert w. do 3 apply and_then_tail_not_true.
    intros w. rewrite (flag_scalar_raises d v _ w Hget Hv). discriminate.
  - intros H1 H2 H3. rewrite !req_check_absent by assumption.
    now apply flag_scalar_raises with (v := v).
Qed.


(** Whatever the history, a requirement set that has the 'visited_scene'
    key never evaluates to true. *)
Lemma visited_scene_never_true (d : list (string * json)) (v : json) (w : World) :
  assoc_get "visited_scene" d = Some v ->
  fst (check_requirements (JDict d) w) <> Ok true.
Proof.
  intros Hget. unfold check_requirements.
  rewrite (bound_key_truthy d "visited_scene" v Hget). change (negb true) with false. cbv iota.
  simpl stat_range_checks.
  assert (Hlast : forall w1, w1 = w ->
            fst ((check_visited_scene (JDict d) &> ret true) w1) <> Ok true).
  { intros w1 ->. cbv [and_then check_visited_scene bind lift key_in ret get_state].
    rewrite Hget. destruct (history (state w)); [discriminate | discriminate]. }
  assert (Hstep : forall (c rest : M bool),
            (forall w0, preserves (fun w => w = w0) c) ->
            (forall w1, w1 = w -> fst (rest w1) <> Ok true) ->
            forall w1, w1 = w -> fst ((c &> rest) w1) <> Ok true).
  { intros c rest Hc Hrest w1 ->. unfold and_then, bind.
    pose proof (Hc w w eq_refl) as Hw.
    destruct (c w) as [[[|] | e] w1]; simpl in *; [now apply Hrest | discriminate | discriminate]. }
  match goal with
  | |- fst (?c w) <> _ =>
      enough (H : forall w1, w1 = w -> fst (c w1) <> Ok true) by exact (H w eq_refl)
  end.
  repeat (apply Hstep; [apply req_check_readonly |]).
  exact Hlast.
Qed.

(** C4, at the failing input: the history entry "start:Open the door"
    contains "start", so the predicate as specified holds, yet evaluation
    raises [NameError]: the generator tests the unbound name [req]. *)
Theorem visited_scene_raises_name_error :
  history_contains "start" (state visited_world) = true /\
  check_requirements (JDict [("visited_scene", JStr "start")]) visited_world
  = (Raise NameError, visited_world).
Proof. split; reflexivity. Qed.

(** ** Effect application *)

Ltac split_state w :=
  let st := fresh "st" in
  destruct w as [st ? ?]; destruct st; cbn in *.

(** Breaks a method body down to its state updates. *)
Ltac pres_step :=
  first
    [ apply preserves_ret
    | apply preserves_raise
    | apply preserves_lift
    | apply preserves_get_state
    | apply preserves_when
    | apply preserves_for_each; intros
    | apply preserves_if_key; intros
    | apply preserves_bind; [| intros]
    | apply preserves_modify
    | match goal with
      | |- preserves _ (match ?x with _ => _ end) => destruct x
      end ].

Lemma add_to_inventory_preserves (P : World -> Prop) (item : json) :
  (forall w l, P w -> P (with_state w (set_inventory l (state w)))) ->
  preserves P (add_to_inventory item).
Proof. intros H. unfold add_to_inventory. repeat pres_step. intros; apply H; assumption. Qed.

Lemma grant_achievement_preserves (P : World -> Prop) (a : json) :
  (forall w l, P w -> P (with_state w (set_achievements l (state w)))) ->
  preserves P (grant_achievement a).
Proof. intros H. unfold grant_achievement. repeat pres_step. intros; apply H; assumption. Qed.

Lemma check_knowledge_achievements_preserves (P : World -> Prop) ios eng :
  (forall w l, P w -> P (with_state w (set_achievements l (state w)))) ->
  preserves P (check_knowledge_achievements ios eng).
Proof.
  intros H. unfold check_knowledge_achievements. repeat pres_step.
  intros; apply H; assumption.
Qed.

Lemma effects_items_preserves (P : World -> Prop) (effects : json) :
  (forall w l, P w -> P (with_state w (set_inventory l (state w)))) ->
  preserves P (effects_items effects).
Proof.
  intros H. unfold effects_items.
  repeat first [apply add_to_inventory_preserves; exact H | pres_step].
  intros; apply H; assumption.
Qed.

Lemma effects_custom_stats_preserves (P : World -> Prop) (effects : json) :
  (forall w m, P w -> P (with_state w (set_stats m (state w)))) ->
  preserves P (effects_custom_stats effects).
Proof.
  intros H. unfold effects_custom_stats. repeat pres_step.
  intros; apply H; assumption.
Qed.

Lemma effects_flags_preserves (P : World -> Prop) (effects : json) :
  (forall w m, P w -> P (with_state w (set_flags m (state w)))) ->
  preserves P (effects_flags effects).
Proof.
  intros H. unfold effects_flags. repeat pres_step; intros; apply H; assumption.
Qed.

Lemma effects_achievements_preserves (P : World -> Prop) (effects : json) :
  (forall w l, P w -> P (with_state w (set_achievements l (state w)))) ->
  preserves P (effects_achievements effects).
Proof.
  intros H. unfold effects_achievements. apply preserves_if_key. intros v _.
  now apply grant_achievement_preserves.
Qed.

Lemma effects_special_preserves (P : World -> Prop) (effects : json) :
  (forall w s, P w -> P (with_state w (set_current_scene s (state w)))) ->
  preserves P (effects_special effects).
Proof.
  intros H. unfold effects_special. repeat pres_step; intros; apply H; assumption.
Qed.

Lemma effects_stats_preserves (P : World -> Prop) ios eng (effects : json) :
  (forall w x, P w -> P (with_state w (set_hp (clamp100 x) (state w)))) ->
  (forall w x, P w -> P (with_state w (set_morality (clamp100 x) (state w)))) ->
  (forall w x, P w -> P (with_state w (set_size (clamp100 x) (state w)))) ->
  (forall w x, P w -> P (with_state w (set_gold (Z.max 0 x) (state w)))) ->
  (forall w d, P w -> knowledge_delta effects = Some d ->
     P (with_state w (set_knowledge (knowledge (state w) + d) (state w)))) ->
  (forall w l, P w -> P (with_state w (set_achievements l (state w)))) ->
  preserves P (effects_stats ios eng effects).
Proof.
  intros Hhp Hmor Hsize Hgold Hknow Hach. unfold effects_stats.
  apply preserves_bind; [repeat pres_step; intros; apply Hhp; assumption | intros ?].
  apply preserves_bind; [repeat pres_step; intros; apply Hmor; assumption | intros ?].
  apply preserves_bind; [repeat pres_step; intros; apply Hsize; assumption | intros ?].
  apply preserves_bind; [repeat pres_step; intros; apply Hgold; assumption | intros ?].
  apply preserves_if_key. intros v Hv.
  apply preserves_bind_state. intros w Hw.
  cbv [bind lift]. destruct (as_int v) as [d | e] eqn:Hd; [| exact Hw].
  cbv [modify_state].
  apply (check_knowledge_achievements_preserves P ios eng Hach).
  apply Hknow; [exact Hw |].
  unfold knowledge_delta. rewrite Hv. simpl. now rewrite Hd.
Qed.

Lemma apply_effects_preserves (P : World -> Prop) ios eng (effects : json) :
  (forall w l, P w -> P (with_state w (set_inventory l (state w)))) ->
  (forall w l, P w -> P (with_state w (set_achievements l (state w)))) ->
  (forall w m, P w -> P (with_state w (set_stats m (state w)))) ->
  (forall w m, P w -> P (with_state w (set_flags m (state w)))) ->
  (forall w s, P w -> P (with_state w (set_current_scene s (state w)))) ->
  (forall w x, P w -> P (with_state w (set_hp (clamp100 x) (state w)))) ->
  (forall w x, P w -> P (with_state w (set_morality (clamp100 x) (state w)))) ->
  (forall w x, P w -> P (with_state w (set_size (clamp100 x) (state w)))) ->
  (forall w x, P w -> P (with_state w (set_gold (Z.max 0 x) (state w)))) ->
  (forall w d, P w -> knowledge_delta effects = Some d ->
     P (with_state w (set_knowledge (knowledge (state w) + d) (state w)))) ->
  preserves P (apply_effects ios eng effects).
Proof.
  intros Hinv Hach Hstats Hflags Hscene Hhp Hmor Hsize Hgold Hknow.
  unfold apply_effects.
  apply preserves_bind; [now apply effects_items_preserves | intros ?].
  apply preserves_bind; [now apply effects_stats_preserves | intros ?].
  apply preserves_bind; [now apply effects_custom_stats_preserves | intros ?].
  apply preserves_bind; [now apply effects_flags_preserves | intros ?].
  apply preserves_bind; [now apply effects_achievements_preserves | intros ?].
  now apply effects_special_preserves.
Qed.

(** C1, as the code has it: from a state within the documented ranges,
    applying any effect set (to completion, or up to the exception it
    raises) leaves hp, morality and size in [0,100] and gold >= 0.
    Knowledge has no floor: it stays >= 0 when it was >= 0 and the
    'knowledge_gain' delta, if the set has one, is >= 0. *)
Theorem apply_effects_keeps_ranges ios eng (effects : json) (w : World) :
  stats_in_range (state w) ->
  stats_in_range (state (snd (apply_effects ios eng effects w))) /\
  (0 <= knowledge (state w) ->
   (forall d, knowledge_delta effects = Some d -> 0 <= d) ->
   0 <= knowledge (state (snd (apply_effects ios eng effects w)))).
Proof.
  intros Hrange. split.
  - apply (apply_effects_preserves (fun w => stats_in_range (state w)));
      try exact Hrange;
      intros w1 x H; split_state w1; unfold stats_in_range, clamp100 in *; cbn in *; lia.
  - intros Hk Hgain.
    apply (apply_effects_preserves (fun w => 0 <= knowledge (state w)));
      try exact Hk;
      try (intros w1 x H; split_state w1; exact H).
    intros w1 d H Hd. specialize (Hgain d Hd). split_state w1. lia.
Qed.

Lemma apply_effects_keeps_ranges_witness :
  stats_in_range (state (snd (apply_effects demo_int demo_engine
     (JDict [("hp_change", JInt (-120)); ("knowledge_gain", JInt 12)]) fresh_world))) /\
  0 <= knowledge (state (snd (apply_effects demo_int demo_engine
     (JDict [("hp_change", JInt (-120)); ("knowledge_gain", JInt 12)]) fresh_world))).
Proof.
  assert (Hrange : stats_in_range (state fresh_world)).
  { unfold stats_in_range. simpl. lia. }
  destruct (apply_effects_keeps_ranges demo_int demo_engine
              (JDict [("hp_change", JInt (-120)); ("knowledge_gain", JInt 12)])
              fresh_world Hrange) as [H1 H2].
  split; [exact H1 |].
  apply H2; [simpl; lia |].
  intros d Hd. vm_compute in Hd. injection Hd as <-. lia.
Defined.

(** C1 as stated fails: a 'knowledge_gain' of -5 on a fresh state is
    applied without raising and leaves knowledge at -5. *)
Lemma negative_knowledge_gain_not_floored :
  fst (apply_effects demo_int demo_engine (JDict [("knowledge_gain", JInt (-5))]) fresh_world)
  = Ok tt /\
  knowledge (state (snd (apply_effects demo_int demo_engine
     (JDict [("knowledge_gain", JInt (-5))]) fresh_world))) = -5 /\
  ~ 0 <= knowledge (state (snd (apply_effects demo_int demo_engine
     (JDict [("knowledge_gain", JInt (-5))]) fresh_world))).
Proof.
  assert (H : knowledge (state (snd (apply_effects demo_int demo_engine
     (JDict [("knowledge_gain", JInt (-5))]) fresh_world))) = -5) by reflexivity.
  split; [reflexivity |]. split; [exact H |]. rewrite H. lia.
Qed.

(** A stat is clamped only when it is changed: a state outside the
    ranges stays outside under an effect set that does not touch it. *)
Example untouched_stat_not_clamped :
  hp (state (snd (apply_effects demo_int demo_engine (JDict [("gold_change", JInt 1)])
                    (with_state fresh_world (set_hp 150 default_state))))) = 150.
Proof. reflexivity. Qed.

Lemma set_flag_not_mapping_raises (d : list (string * json)) (v : json) (w : World) :
  assoc_get "set_flag" d = Some v -> is_dict v = false ->
  effects_flags (JDict d) w = (Raise AttributeError, w).
Proof.
  intros Hget Hv. cbv [effects_flags if_key bind lift key_in getitem]. rewrite Hget.
  destruct v; try discriminate Hv; reflexivity.
Qed.

(** C2, as the code has it: there is no rollback.  When 'set_flag' is
    bound to a value that is not a mapping, [_apply_effects] runs the item,
    stat and custom-stat effects of the set first; if none of them raises,
    it then raises [AttributeError] and the state is the one those effects
    produced; the later effects (flags, achievement, terminal jumps) are
    not applied. *)
Theorem malformed_set_flag_keeps_earlier_effects ios eng
    (d : list (string * json)) (v : json) (w : World) :
  assoc_get "set_flag" d = Some v ->
  is_dict v = false ->
  apply_effects ios eng (JDict d) w =
    match (effects_items (JDict d) >> effects_stats ios eng (JDict d) >>
           effects_custom_stats (JDict d)) w with
    | (Ok _, w') => (Raise AttributeError, w')
    | (Raise e, w') => (Raise e, w')
    end.
Proof.
  intros Hget Hv. unfold apply_effects, bind.
  destruct (effects_items (JDict d) w) as [[[] | e1] w1]; [| reflexivity].
  destruct (effects_stats ios eng (JDict d) w1) as [[[] | e2] w2]; [| reflexivity].
  destruct (effects_custom_stats (JDict d) w2) as [[[] | e3] w3]; [| reflexivity].
  now rewrite (set_flag_not_mapping_raises d v w3 Hget Hv).
Qed.

Lemma malformed_set_flag_keeps_earlier_effects_witness :
  apply_effects demo_int demo_engine
    (JDict [("set_flag", JList [JStr "door_open"]); ("gold_change", JInt 7)]) fresh_world
  = (Raise AttributeError, with_state fresh_world (set_gold 7 default_state)).
Proof.
  rewrite (malformed_set_flag_keeps_earlier_effects demo_int demo_engine
             [("set_flag", JList [JStr "door_open"]); ("gold_change", JInt 7)]
             (JList [JStr "door_open"]) fresh_world eq_refl eq_refl).
  reflexivity.
Defined.

(** C2 as stated fails: with 'add_item' next to a scalar 'set_flag', the
    call raises [AttributeError] and the item stays in the inventory. *)
Lemma malformed_effect_not_rolled_back :
  fst (apply_effects demo_int demo_engine
         (JDict [("add_item", JStr "key"); ("set_flag", JInt 5)]) fresh_world)
  = Raise AttributeError /\
  inventory (state (snd (apply_effects demo_int demo_engine
         (JDict [("add_item", JStr "key"); ("set_flag", JInt 5)]) fresh_world)))
  = [JStr "key"] /\
  state (snd (apply_effects demo_int demo_engine
         (JDict [("add_item", JStr "key"); ("set_flag", JInt 5)]) fresh_world))
  <> state fresh_world.
Proof.
  split; [reflexivity |]. split; [reflexivity |].
  intros H. apply (f_equal inventory) in H. discriminate H.
Qed.

(** The other malformed shape: a scalar 'add_items' raises [TypeError]
    after 'add_item' has taken hold. *)
Lemma malformed_add_items_not_rolled_back :
  apply_effects demo_int demo_engine
    (JDict [("add_items", JInt 7); ("add_item", JStr "key")]) fresh_world
  = (Raise TypeError, with_state fresh_world (set_inventory [JStr "key"] default_state)).
Proof. reflexivity. Qed.

(** ** Transition *)

(** C6, as the code has it: in a state where the list of currently
    available choices can be computed, when the index is negative or not
    below the length of that list, [make_choice] returns [False] as a value
    and the world (player state, notifications, save files) is unchanged. *)
Theorem make_choice_out_of_range ios eng (choice_index : Z)
    (available : list Choice) (w w' : World) :
  get_available_choices eng w = (Ok available, w') ->
  choice_index < 0 \/ Z.of_nat (length available) <= choice_index ->
  make_choice ios eng choice_index w = (Ok false, w).
Proof.
  intros Hav Hidx.
  assert (Hw : w' = w).
  { pose proof (get_available_choices_readonly eng w) as H. now rewrite Hav in H. }
  subst w'. unfold make_choice. rewrite (bind_ok _ _ _ _ _ Hav).
  assert (Hcond : Z.ltb choice_index 0 || Z.geb choice_index (Z.of_nat (length available)) = true).
  { apply orb_true_iff. destruct Hidx as [H | H]; [left | right].
    - now apply Z.ltb_lt.
    - rewrite Z.geb_leb. now apply Z.leb_le. }
  now rewrite Hcond.
Qed.

Lemma make_choice_out_of_range_witness :
  make_choice demo_int demo_engine 1 fresh_world = (Ok false, fresh_world) /\
  make_choice demo_int demo_engine (-1) fresh_world = (Ok false, fresh_world).
Proof.
  split.
  - apply (make_choice_out_of_range demo_int demo_engine 1
             [mkChoice "Climb the wall" "pit" JNull
                (JDict [("hp_change", JInt (-20)); ("victory", JBool true)])
                (JInt 10) JNull JNull JNull]
             fresh_world fresh_world).
    + vm_compute. reflexivity.
    + right. simpl. lia.
  - apply (make_choice_out_of_range demo_int demo_engine (-1)
             [mkChoice "Climb the wall" "pit" JNull
                (JDict [("hp_change", JInt (-20)); ("victory", JBool true)])
                (JInt 10) JNull JNull JNull]
             fresh_world fresh_world).
    + vm_compute. reflexivity.
    + left. lia.
Defined.

Lemma bind_inv {A B : Type} (m : M A) (f : A -> M B) (w w' : World) (b : B) :
  bind m f w = (Ok b, w') ->
  exists a w1, m w = (Ok a, w1) /\ f a w1 = (Ok b, w').
Proof.
  unfold bind. destruct (m w) as [[a | e] w1]; intros H; [eauto | discriminate].
Qed.

Lemma preserves_run {A : Type} (P : World -> Prop) (m : M A) (w w' : World) (r : res A) :
  preserves P m -> m w = (r, w') -> P w -> P w'.
Proof. intros Hm Hrun Hw. specialize (Hm w Hw). now rewrite Hrun in Hm. Qed.

(** An effect set applied to the end changes the current scene only
    through its terminal jumps. *)
Lemma apply_effects_scene ios eng (effects : json) (w w' : World) :
  apply_effects ios eng effects w = (Ok tt, w') ->
  current_scene (state w') = final_jump effects (current_scene (state w)).
Proof.
  intros H. unfold apply_effects in H.
  set (s := current_scene (state w)). assert (Hs : current_scene (state w) = s) by reflexivity.
  clearbody s.
  apply bind_inv in H as ([] & w1 & H1 & H).
  apply (preserves_run (fun w => current_scene (state w) = s)) in H1;
    [| apply effects_items_preserves; intros w0 l Hw0; exact Hw0 | exact Hs].
  apply bind_inv in H as ([] & w2 & H2 & H).
  apply (preserves_run (fun w => current_scene (state w) = s)) in H2;
    [| apply effects_stats_preserves; intros w0 x Hw0; try intros _; exact Hw0 | exact H1].
  apply bind_inv in H as ([] & w3 & H3 & H).
  apply (preserves_run (fun w => current_scene (state w) = s)) in H3;
    [| apply effects_custom_stats_preserves; intros w0 l Hw0; exact Hw0 | exact H2].
  apply bind_inv in H as ([] & w4 & H4 & H).
  apply (preserves_run (fun w => current_scene (state w) = s)) in H4;
    [| apply effects_flags_preserves; intros w0 l Hw0; exact Hw0 | exact H3].
  apply bind_inv in H as ([] & w5 & H5 & H).
  apply (preserves_run (fun w => current_scene (state w) = s)) in H5;
    [| apply effects_achievements_preserves; intros w0 l Hw0; exact Hw0 | exact H4].
  unfold final_jump. revert H. cbv [effects_special bind lift when modify_state ret].
  destruct (key_in "game_over" effects) as [[|] | e1]; try discriminate;
    destruct (key_in "victory" effects) as [[|] | e2]; try discriminate;
    intros H; injection H as <-; simpl; try reflexivity; exact H5.
Qed.

Lemma trigger_hooks_state (ev : Event) (w w' : World) (r : res unit) :
  trigger_hooks ev w = (r, w') -> state w' = state w.
Proof. intros H. injection H as _ <-. reflexivity. Qed.

(** C10: after a successful [make_choice], the current scene is fixed by
    the selected choice's [next_scene] and the entry effects of the scene
    of that name; the choice's own effect set, terminal jumps included,
    has no part in it. *)
Theorem make_choice_final_scene ios eng (choice_index : Z) (w w' : World) :
  make_choice ios eng choice_index w = (Ok true, w') ->
  exists available choice,
    get_available_choices eng w = (Ok available, w) /\
    available !! Z.to_nat choice_index = Some choice /\
    current_scene (state w') = scene_after_entry eng (next_scene choice).
Proof.
  intros H. unfold make_choice in H.
  apply bind_inv in H as (available & w1 & Hav & H).
  assert (Hw1 : w1 = w).
  { pose proof (get_available_choices_readonly eng w) as Hro. now rewrite Hav in Hro. }
  subst w1.
  destruct (Z.ltb choice_index 0 || Z.geb choice_index (Z.of_nat (length available)));
    [discriminate H |].
  destruct (available !! Z.to_nat choice_index) as [choice |] eqn:Hchoice;
    [| discriminate H].
  exists available, choice. split; [exact Hav |]. split; [exact Hchoice |].
  unfold take_choice in H.
  apply bind_inv in H as (st0 & wa & _ & H).
  apply bind_inv in H as ([] & wb & _ & H).
  apply bind_inv in H as ([] & wc & _ & H).
  apply bind_inv in H as ([] & wd & _ & H).
  apply bind_inv in H as ([] & we & _ & H).
  apply bind_inv in H as ([] & wf & _ & H).
  apply bind_inv in H as (st1 & wg & _ & H).
  apply bind_inv in H as ([] & wh & Hmove & H).
  apply bind_inv in H as (scene & wi & Hscene & H).
  apply bind_inv in H as ([] & wj & Henter & H).
  apply bind_inv in H as (st2 & wk & Hst2 & H).
  apply bind_inv in H as ([] & wl & Hhook & H).
  injection H as <-.
  rewrite (trigger_hooks_state _ _ _ _ Hhook).
  injection Hst2 as _ <-.
  injection Hmove as <-.
  cbv [get_current_scene bind get_state ret] in Hscene. injection Hscene as <- <-.
  unfold scene_after_entry. cbn [state with_state current_scene set_current_scene] in *.
  destruct (scenes eng !! next_scene choice) as [sc |].
  - destruct (truthy (on_enter sc)); simpl in Henter.
    + now rewrite (apply_effects_scene _ _ _ _ _ Henter).
    + now injection Henter as <-.
  - now injection Henter as <-.
Qed.

Lemma make_choice_final_scene_witness :
  exists available choice,
    get_available_choices demo_engine fresh_world = (Ok available, fresh_world) /\
    available !! Z.to_nat 0 = Some choice /\
    current_scene (state (snd (make_choice demo_int demo_engine 0 fresh_world)))
    = scene_after_entry demo_engine (next_scene choice).
Proof.
  apply (make_choice_final_scene demo_int demo_engine 0 fresh_world
           (snd (make_choice demo_int demo_engine 0 fresh_world))).
  vm_compute. reflexivity.
Defined.

(** The demo choice carries 'victory' in its own effects and leads to a
    scene whose entry effects say 'game_over': the game ends in
    "game_over". *)
Example demo_choice_jump_overwritten :
  current_scene (state (snd (make_choice demo_int demo_engine 0 fresh_world))) = "game_over".
Proof. reflexivity. Qed.

(** ** Rendering *)

Lemma render_scene_readonly (eng : Engine) : readonly (render_scene eng).
Proof.
  apply readonly_preserves. intros w0. unfold render_scene.
  apply preserves_bind.
  { unfold get_current_scene. repeat pres_step. }
  intros [sc |]; [| apply preserves_ret].
  apply preserves_bind.
  { intros w ->. apply get_available_choices_readonly. }
  intros available. repeat pres_step.
Qed.

(** C8: [render_scene] leaves the world as it found it, and a second
    call right after the first gives the same outcome: the same rendered
    scene, or the same error. *)
Theorem render_scene_idempotent (eng : Engine) (w : World) :
  snd (render_scene eng w) = w /\
  render_scene eng (snd (render_scene eng w)) = render_scene eng w.
Proof.
  pose proof (render_scene_readonly eng w) as H.
  split; [exact H | now rewrite H].
Qed.

(** ** Ending resolution *)

Lemma special_ending_find (es : list (list (string * json))) (w : World) :
  (forall e ex, In e es -> fst (check_requirements (dict_get e "requirements") w) <> Raise ex) ->
  special_ending es w
  = (Ok (List.find (fun e => declares_requirements e && requirements_hold w e) es), w).
Proof.
  induction es as [| e es IH]; intros Hsafe; [reflexivity |].
  assert (IH' : special_ending es w
    = (Ok (List.find (fun e => declares_requirements e && requirements_hold w e) es), w)).
  { apply IH. intros e' ex Hin. apply Hsafe. now right. }
  specialize (Hsafe e). simpl. unfold declares_requirements at 1, requirements_hold at 1.
  unfold dict_get at 1 2 3. unfold dict_get in Hsafe.
  cbv [bind lift getitem].
  destruct (assoc_get "requirements" e) as [reqs |]; [| exact IH'].
  destruct (truthy reqs); [| exact IH'].
  pose proof (check_requirements_readonly reqs w) as Hro.
  destruct (check_requirements reqs w) as [[[|] | ex] w1]; simpl in *; subst w1.
  - reflexivity.
  - exact IH'.
  - exfalso. apply (Hsafe ex); [now left | reflexivity].
Qed.

(** C7, as the code has it: when no requirement evaluation raises,
    [get_ending] returns the first declared ending that declares a
    non-empty requirement set evaluating true; if there is none, the first
    ending whose tier is the one the four morality bands select, or nothing
    when no ending has that tier.  The state is not changed. *)
Theorem get_ending_resolution (eng : Engine) (w : World) :
  (forall e ex, In e (endings eng) ->
     fst (check_requirements (dict_get e "requirements") w) <> Raise ex) ->
  get_ending eng w = (Ok (guarded_ending eng w), w).
Proof.
  intros Hsafe. unfold get_ending, guarded_ending.
  rewrite (bind_ok _ _ _ _ _ (special_ending_find (endings eng) w Hsafe)).
  destruct (List.find _ (endings eng)); reflexivity.
Qed.

Lemma get_ending_resolution_witness :
  get_ending endings_engine saintly_world
  = (Ok (Some [("title", JStr "Triumph"); ("tier", JStr "perfect")]), saintly_world).
Proof.
  rewrite (get_ending_resolution endings_engine saintly_world).
  - reflexivity.
  - intros e ex Hin.
    destruct Hin as [<- | [<- | [<- | []]]]; vm_compute; discriminate.
Defined.

(** C7 as stated fails: the ending "A quiet end" has the requirement set
    {}, which evaluates true, so it is the first declared ending whose
    requirements evaluate true; [get_ending] passes over it and returns
    "Triumph" by tier. *)
Lemma empty_requirements_ending_skipped :
  requirements_hold saintly_world
    [("title", JStr "A quiet end"); ("requirements", JDict []); ("tier", JStr "bad")] = true /\
  claimed_ending endings_engine saintly_world
  = Some [("title", JStr "A quiet end"); ("requirements", JDict []); ("tier", JStr "bad")] /\
  fst (get_ending endings_engine saintly_world)
  = Ok (Some [("title", JStr "Triumph"); ("tier", JStr "perfect")]) /\
  fst (get_ending endings_engine saintly_world)
  <> Ok (claimed_ending endings_engine saintly_world).
Proof.
  split; [reflexivity |]. split; [reflexivity |]. split; [reflexivity |].
  vm_compute. discriminate.
Qed.

(** ** Save slots *)

Lemma decode_all_map {A B : Type} (f : A -> res B) (g : B -> A) (l : list B) :
  (forall y, f (g y) = Ok y) -> decode_all f (map g l) = Ok l.
Proof.
  intros Hfg. induction l as [| y l IH]; [reflexivity |].
  simpl. rewrite Hfg. simpl. now rewrite IH.
Qed.

Lemma decode_strs_history (l : list string) : decode_strs (JList (map JStr l)) = Ok l.
Proof. simpl. now apply decode_all_map. Qed.

Lemma decode_flags_to_list (m : gmap string json) :
  decode_flags (JDict (map_to_list m)) = Ok m.
Proof. simpl. now rewrite list_to_map_to_list. Qed.

Lemma decode_stats_to_list (m : gmap string Z) :
  decode_stats (JDict (map (fun kv => (fst kv, JInt (snd kv))) (map_to_list m))) = Ok m.
Proof.
  unfold decode_stats.
  rewrite (decode_all_map _ (fun kv : string * Z => (fst kv, JInt (snd kv)))).
  - simpl. now rewrite list_to_map_to_list.
  - now intros [k n].
Qed.

(** [from_dict] undoes [to_dict]. *)
Lemma from_dict_to_dict (st : GameState) : from_dict (to_dict st) = Ok st.
Proof.
  unfold from_dict, to_dict.
  change (forallb _ _) with true. cbv iota.
  unfold field_or.
  repeat match goal with
         | |- context [assoc_get ?k ?d] =>
             let r := eval cbn in (assoc_get k d) in
             change (assoc_get k d) with r; cbv iota
         end.
  rewrite decode_flags_to_list, decode_strs_history, decode_stats_to_list.
  destruct st; reflexivity.
Qed.

(** C9, as the code has it: when saving the player state to a slot
    succeeds, loading that slot afterwards succeeds and gives back the
    state that was saved, field for field, whatever the player state has
    become in between: the state comes from the file.  The save itself
    leaves the player state as it is. *)
Theorem save_then_load_restores (fs : FileSystem) (eng : Engine)
    (slot_name now path : string) (w w2 : World) :
  fst (save_game fs eng slot_name now w) = Ok path ->
  files w2 = files (snd (save_game fs eng slot_name now w)) ->
  state (snd (save_game fs eng slot_name now w)) = state w /\
  fst (load_game fs eng slot_name w2) = Ok true /\
  state (snd (load_game fs eng slot_name w2)) = state w.
Proof.
  unfold save_game, load_game.
  cbv [bind trigger_hooks get_state write_file ret lift modify_state with_state
       state events files fst snd].
  destruct (file_of fs (slot_name +:+ ".json")) as [f |]; [| discriminate].
  destruct (writable fs (slot_name +:+ ".json")); [| discriminate].
  intros _ Hfiles. destruct w2 as [st2 ev2 fs2]. cbn in Hfiles. subst fs2.
  split; [reflexivity |].
  rewrite lookup_insert_eq.
  cbv [getitem]. cbn [assoc_get String.eqb Ascii.eqb Bool.eqb].
  rewrite from_dict_to_dict. split; reflexivity.
Qed.

Lemma save_then_load_restores_witness :
  state (snd (save_game demo_fs demo_engine "slot1" "2024-01-01T00:00:00" fresh_world))
  = state fresh_world /\
  fst (load_game demo_fs demo_engine "slot1"
         (snd (make_choice demo_int demo_engine 0
                 (snd (save_game demo_fs demo_engine "slot1" "2024-01-01T00:00:00"
                         fresh_world))))) = Ok true /\
  state (snd (load_game demo_fs demo_engine "slot1"
         (snd (make_choice demo_int demo_engine 0
                 (snd (save_game demo_fs demo_engine "slot1" "2024-01-01T00:00:00"
                         fresh_world)))))) = state fresh_world.
Proof.
  apply (save_then_load_restores demo_fs demo_engine "slot1" "2024-01-01T00:00:00"
           "saves/slot1.json" fresh_world); reflexivity.
Defined.

(** C9 as stated fails: a slot name that leads into a missing
    subdirectory cannot be saved.  [save_game] raises, after the on-save
    notification, and writes nothing; loading that slot then returns
    [False] and gives no state back. *)
Lemma save_into_missing_directory :
  save_game demo_fs demo_engine "a/b" "2024-01-01T00:00:00" fresh_world
  = (Raise OSError,
     {| state := default_state; events := [OnSave "a/b"]; files := ∅ |}) /\
  fst (load_game demo_fs demo_engine "a/b"
         (snd (save_game demo_fs demo_engine "a/b" "2024-01-01T00:00:00" fresh_world)))
  = Ok false /\
  fst (load_game demo_fs demo_engine "a/b"
         (snd (save_game demo_fs demo_engine "a/b" "2024-01-01T00:00:00" fresh_world)))
  <> Ok true.
Proof.
  split; [vm_compute; reflexivity |]. split; [vm_compute; reflexivity |].
  vm_compute. discriminate.
Qed.

(** * Further properties *)

(** ** Invariants of the transition code *)

(** Runs the reads and tests at the head of a method body on a concrete
    world, leaving the updates. *)
Ltac run_body :=
  cbv [bind get_state lift modify_state when ret if_key];
  repeat match goal with
         | |- context [match ?x with _ => _ end] =>
             match type of x with
             | res _ => destruct x
             | bool => destruct x eqn:?
             | option _ => destruct x eqn:?
             | prod _ _ => destruct x
             end
         end;
  cbn [fst snd].

Section Closed.

Variable P : World -> Prop.
Hypothesis HP : step_closed P.
Variable ios : string -> option Z.
Variable eng : Engine.

Lemma add_to_inventory_closed (item : json) : preserves P (add_to_inventory item).
Proof.
  intros w Hw. unfold add_to_inventory. run_body; [| exact Hw].
  apply (closed_add_item P HP); [exact Hw |]. now apply negb_true_iff.
Qed.

Lemma grant_achievement_closed (a : json) : preserves P (grant_achievement a).
Proof.
  intros w Hw. unfold grant_achievement. run_body; [| exact Hw].
  apply (closed_grant P HP); [exact Hw |]. now apply negb_true_iff.
Qed.

Lemma trigger_hooks_closed (ev : Event) : preserves P (trigger_hooks ev).
Proof. intros w Hw. now apply (closed_event P HP). Qed.

Lemma check_knowledge_achievements_closed :
  preserves P (check_knowledge_achievements ios eng).
Proof.
  unfold check_knowledge_achievements. apply preserves_bind_lift. intros items _.
  apply preserves_for_each. intros [threshold achievement] w Hw.
  run_body; try exact Hw.
  apply (closed_grant P HP); [exact Hw |].
  match goal with
  | H : _ && _ = true |- _ => apply andb_prop in H as [_ H]; now apply negb_true_iff
  end.
Qed.

Lemma effects_items_closed (effects : json) : preserves P (effects_items effects).
Proof.
  unfold effects_items.
  apply preserves_bind;
    [apply preserves_if_key; intros; apply add_to_inventory_closed | intros ?].
  apply preserves_bind.
  - apply preserves_if_key. intros v _. apply preserves_bind_lift. intros items _.
    apply preserves_for_each. intros item. apply add_to_inventory_closed.
  - intros ?. apply preserves_if_key. intros item _ w Hw.
    run_body; [| exact Hw]. now apply (closed_remove_item P HP).
Qed.

Lemma effects_stats_closed (effects : json) : preserves P (effects_stats ios eng effects).
Proof.
  unfold effects_stats.
  apply preserves_bind;
    [apply preserves_if_key; intros v _ w Hw; run_body;
       [now apply (closed_hp P HP) | exact Hw] | intros ?].
  apply preserves_bind;
    [apply preserves_if_key; intros v _ w Hw; run_body;
       [now apply (closed_morality P HP) | exact Hw] | intros ?].
  apply preserves_bind;
    [apply preserves_if_key; intros v _ w Hw; run_body;
       [now apply (closed_size P HP) | exact Hw] | intros ?].
  apply preserves_bind;
    [apply preserves_if_key; intros v _ w Hw; run_body;
       [now apply (closed_gold P HP) | exact Hw] | intros ?].
  apply preserves_if_key. intros v _ w Hw. run_body; [| exact Hw].
  apply check_knowledge_achievements_closed. now apply (closed_knowledge P HP).
Qed.

Lemma effects_custom_stats_closed (effects : json) :
  preserves P (effects_custom_stats effects).
Proof.
  unfold effects_custom_stats. apply preserves_if_key. intros v _.
  apply preserves_bind_lift. intros items _.
  apply preserves_for_each. intros [stat value] w Hw.
  run_body; [| exact Hw]. now apply (closed_stat P HP).
Qed.

Lemma effects_flags_closed (effects : json) : preserves P (effects_flags effects).
Proof.
  unfold effects_flags. apply preserves_bind.
  - apply preserves_if_key. intros v _. apply preserves_bind_lift. intros items _.
    apply preserves_for_each. intros [flag value] w Hw.
    now apply (closed_set_flag P HP).
  - intros ?. apply preserves_if_key. intros flag _ w Hw.
    run_body; try exact Hw.
    apply (closed_clear_flag P HP); [exact Hw |].
    match goal with
    | H : bool_decide _ = true |- _ => now apply bool_decide_eq_true in H
    end.
Qed.

Lemma effects_achievements_closed (effects : json) :
  preserves P (effects_achievements effects).
Proof.
  unfold effects_achievements. apply preserves_if_key. intros a _.
  apply grant_achievement_closed.
Qed.

Lemma effects_special_closed (effects : json) : preserves P (effects_special effects).
Proof.
  unfold effects_special. apply preserves_bind; [| intros ?].
  - intros w Hw. run_body; try exact Hw. now apply (closed_scene P HP).
  - intros w Hw. run_body; try exact Hw. now apply (closed_scene P HP).
Qed.

Lemma apply_effects_closed (effects : json) :
  preserves P (apply_effects ios eng effects).
Proof.
  unfold apply_effects.
  apply preserves_bind; [apply effects_items_closed | intros ?].
  apply preserves_bind; [apply effects_stats_closed | intros ?].
  apply preserves_bind; [apply effects_custom_stats_closed | intros ?].
  apply preserves_bind; [apply effects_flags_closed | intros ?].
  apply preserves_bind; [apply effects_achievements_closed | intros ?].
  apply effects_special_closed.
Qed.

Lemma direct_changes_closed (choice : Choice) :
  preserves P (direct_changes ios eng choice).
Proof.
  unfold direct_changes.
  apply preserves_bind;
    [apply preserves_when; intros w Hw; run_body;
       [now apply (closed_morality P HP) | exact Hw] | intros ?].
  apply preserves_bind;
    [apply preserves_when; intros w Hw; run_body; [| exact Hw];
       apply check_knowledge_achievements_closed; now apply (closed_knowledge P HP)
    | intros ?].
  apply preserves_bind;
    [apply preserves_when; intros w Hw; run_body;
       [now apply (closed_gold P HP) | exact Hw] | intros ?].
  apply preserves_when. intros w Hw. run_body; [now apply (closed_hp P HP) | exact Hw].
Qed.

(** What [make_choice] does after recording the history entry. *)
Lemma take_choice_closed (Q : World -> Prop) (choice : Choice) (w : World) :
  Q w ->
  (forall w, Q w ->
     P (with_state w (set_history (history (state w) ++ [history_entry w choice]) (state w)))) ->
  P (snd (take_choice ios eng choice w)).
Proof.
  intros Hw Hhist. specialize (Hhist w Hw). revert Hhist.
  enough (Htail : preserves P
    (trigger_hooks (OnSceneExit (current_scene (state w))) >>
     when (truthy (effects choice)) (apply_effects ios eng (effects choice)) >>
     direct_changes ios eng choice >>
     trigger_hooks (OnChoice choice) >>
     let* st := get_state in
     let prev_scene := current_scene st in
     modify_state (set_current_scene (next_scene choice)) >>
     let* scene := get_current_scene eng in
     match scene with
     | Some sc => when (truthy (on_enter sc)) (apply_effects ios eng (on_enter sc))
     | None => ret tt
     end >>
     let* st := get_state in
     trigger_hooks (OnSceneEnter prev_scene (current_scene st)) >>
     ret true)) by exact (Htail _).
  apply preserves_bind; [apply trigger_hooks_closed | intros ?].
  apply preserves_bind; [apply preserves_when, apply_effects_closed | intros ?].
  apply preserves_bind; [apply direct_changes_closed | intros ?].
  apply preserves_bind; [apply trigger_hooks_closed | intros ?].
  apply preserves_bind; [apply preserves_get_state | intros st1].
  apply preserves_bind;
    [intros w1 Hw1; now apply (closed_scene P HP) | intros ?].
  apply preserves_bind; [unfold get_current_scene; repeat pres_step | intros scene].
  apply preserves_bind.
  - destruct scene as [sc |]; [apply preserves_when, apply_effects_closed | apply preserves_ret].
  - intros ?. apply preserves_bind; [apply preserves_get_state | intros st2].
    apply preserves_bind; [apply trigger_hooks_closed | intros ?]. apply preserves_ret.
Qed.

End Closed.

Lemma rejected_index_returns_false ios eng (choice_index : Z)
    (available : list Choice) (w : World) :
  get_available_choices eng w = (Ok available, w) ->
  choice_index < 0 \/ Z.of_nat (length available) <= choice_index ->
  make_choice ios eng choice_index w = (Ok false, w).
Proof.
  intros Hav Hidx. unfold make_choice. rewrite (bind_ok _ _ _ _ _ Hav).
  assert (Hcond : Z.ltb choice_index 0 || Z.geb choice_index (Z.of_nat (length available)) = true).
  { apply orb_true_iff. destruct Hidx as [H | H]; [left | right].
    - now apply Z.ltb_lt.
    - rewrite Z.geb_leb. now apply Z.leb_le. }
  now rewrite Hcond.
Qed.

Lemma make_choice_accepted ios eng (choice_index : Z) (available : list Choice)
    (choice : Choice) (w : World) :
  get_available_choices eng w = (Ok available, w) ->
  0 <= choice_index ->
  available !! Z.to_nat choice_index = Some choice ->
  make_choice ios eng choice_index w = take_choice ios eng choice w.
Proof.
  intros Hav Hpos Hget. unfold make_choice. rewrite (bind_ok _ _ _ _ _ Hav).
  apply lookup_lt_Some in Hget as Hlt.
  assert (Hcond : Z.ltb choice_index 0 || Z.geb choice_index (Z.of_nat (length available)) = false).
  { apply orb_false_iff. split; [now apply Z.ltb_ge |].
    rewrite Z.geb_leb. apply Z.leb_gt. lia. }
  now rewrite Hcond, Hget.
Qed.

(** A property closed under the steps of the transition code and under
    the recording of a history entry is kept by [make_choice], whatever
    the index and whatever the outcome. *)
Lemma make_choice_closed (P : World -> Prop) ios eng (choice_index : Z) (w : World) :
  step_closed P ->
  (forall w e, P w -> P (with_state w (set_history (history (state w) ++ [e]) (state w)))) ->
  P w -> P (snd (make_choice ios eng choice_index w)).
Proof.
  intros HP Hhist Hw. unfold make_choice, bind.
  pose proof (get_available_choices_readonly eng w) as Hro.
  destruct (get_available_choices eng w) as [[available | e] w1]; simpl in Hro; subst w1;
    [| exact Hw].
  destruct (Z.ltb choice_index 0 || Z.geb choice_index (Z.of_nat (length available)));
    [exact Hw |].
  destruct (available !! Z.to_nat choice_index) as [choice |]; [| exact Hw].
  apply (take_choice_closed P HP ios eng P); [exact Hw |].
  intros w1 Hw1. now apply Hhist.
Qed.

Lemma stats_in_range_closed : step_closed (fun w => stats_in_range (state w)).
Proof.
  split; intros w; intros; split_state w; unfold stats_in_range, clamp100 in *;
    cbn in *; lia.
Qed.

Lemma py_list_remove_app (y : json) (l l' : list json) :
  py_list_remove y (l ++ l') =
  if existsb (fun el => py_eq el y) l
  then (py_list_remove y l ++ l')%list
  else (l ++ py_list_remove y l')%list.
Proof.
  induction l as [| x l IH]; [reflexivity |].
  simpl. destruct (py_eq x y); [reflexivity |]. simpl. rewrite IH.
  now destruct (existsb (fun el => py_eq el y) l).
Qed.

Lemma py_in_list_remove (x y : json) (l : list json) :
  py_in_list x l = false -> py_in_list x (py_list_remove y l) = false.
Proof.
  unfold py_in_list. induction l as [| z l IH]; [reflexivity |].
  simpl. intros H. apply orb_false_iff in H as [Hz Hl].
  destruct (py_eq z y); [exact Hl |]. simpl. now rewrite Hz, IH.
Qed.

Lemma no_repeats_remove (y : json) (l : list json) :
  no_repeats l -> no_repeats (py_list_remove y l).
Proof.
  induction 1 as [| l x Hl IH Hx]; [constructor |].
  rewrite py_list_remove_app.
  destruct (existsb (fun el => py_eq el y) l).
  - constructor; [exact IH | now apply py_in_list_remove].
  - simpl. destruct (py_eq x y); [now rewrite app_nil_r | now constructor].
Qed.

Lemma no_repeats_closed :
  step_closed (fun w => no_repeats (inventory (state w)) /\ no_repeats (achievements (state w))).
Proof.
  split; intros w; intros; split_state w;
    repeat match goal with H : _ /\ _ |- _ => destruct H end;
    try (split; assumption).
  - split; [now constructor | assumption].
  - split; [now apply no_repeats_remove | assumption].
  - split; [assumption | now constructor].
Qed.



Lemma history_only_closed (h : list string) :
  step_closed (fun w => history (state w) = h).
Proof. split; intros w; intros; split_state w; assumption. Qed.

(** X1: from a state whose hp, morality, size and gold are in range,
    [make_choice] leaves them in range, for every index and whether the
    call returns or raises. *)
Theorem make_choice_keeps_ranges ios eng (choice_index : Z) (w : World) :
  stats_in_range (state w) ->
  stats_in_range (state (snd (make_choice ios eng choice_index w))).
Proof.
  intros Hw.
  apply (make_choice_closed (fun w => stats_in_range (state w)));
    [apply stats_in_range_closed | | exact Hw].
  intros w1 e H. split_state w1. exact H.
Qed.

Lemma make_choice_keeps_ranges_witness :
  stats_in_range (state (snd (make_choice demo_int demo_engine 0 fresh_world))).
Proof.
  apply make_choice_keeps_ranges. unfold stats_in_range. simpl. lia.
Defined.

(** X2: when neither the inventory nor the achievement list repeats an
    element, they still repeat none after [_apply_effects], whatever the
    effect set and the outcome: items and achievements are appended only
    when absent, and [remove] drops one element. *)
Theorem apply_effects_keeps_no_repeats ios eng (effects : json) (w : World) :
  no_repeats (inventory (state w)) ->
  no_repeats (achievements (state w)) ->
  no_repeats (inventory (state (snd (apply_effects ios eng effects w)))) /\
  no_repeats (achievements (state (snd (apply_effects ios eng effects w)))).
Proof.
  intros Hi Ha.
  apply (apply_effects_closed _ no_repeats_closed ios eng effects w). now split.
Qed.

Lemma apply_effects_keeps_no_repeats_witness :
  no_repeats (inventory (state (snd (apply_effects demo_int demo_engine
    (JDict [("add_items", JList [JStr "key"; JStr "rope"; JStr "key"])]) fresh_world)))) /\
  no_repeats (achievements (state (snd (apply_effects demo_int demo_engine
    (JDict [("add_items", JList [JStr "key"; JStr "rope"; JStr "key"])]) fresh_world)))).
Proof.
  apply apply_effects_keeps_no_repeats; simpl; constructor.
Defined.

(** X3: once the index is accepted, [make_choice] has recorded exactly
    one history entry, "scene:choice text" with the scene that was current
    at the call, at the end of the history; this holds even when a later
    step of the transition raises. *)
Theorem make_choice_records_history ios eng (choice_index : Z)
    (available : list Choice) (choice : Choice) (w : World) :
  get_available_choices eng w = (Ok available, w) ->
  0 <= choice_index ->
  available !! Z.to_nat choice_index = Some choice ->
  history (state (snd (make_choice ios eng choice_index w)))
  = (history (state w) ++ [current_scene (state w) +:+ ":" +:+ text choice])%list.
Proof.
  intros Hav Hpos Hget.
  rewrite (make_choice_accepted ios eng choice_index available choice w Hav Hpos Hget).
  apply (take_choice_closed _ (history_only_closed _) ios eng (fun w1 => w1 = w));
    [reflexivity |].
  intros w1 ->. reflexivity.
Qed.

Lemma make_choice_records_history_witness :
  history (state (snd (make_choice demo_int demo_engine 0 fresh_world)))
  = ["start:Climb the wall"].
Proof.
  apply (make_choice_records_history demo_int demo_engine 0
           [mkChoice "Climb the wall" "pit" JNull
              (JDict [("hp_change", JInt (-20)); ("victory", JBool true)])
              (JInt 10) JNull JNull JNull]
           (mkChoice "Climb the wall" "pit" JNull
              (JDict [("hp_change", JInt (-20)); ("victory", JBool true)])
              (JInt 10) JNull JNull JNull)
           fresh_world).
  - vm_compute. reflexivity.
  - lia.
  - reflexivity.
Defined.

(** X4: [make_choice] never takes an achievement away and never drops
    or rewrites a history entry: after the call, for every index and
    outcome, both lists are the old ones with zero or more elements added
    at the end. *)
Theorem make_choice_append_only ios eng (choice_index : Z) (w : World) :
  (exists extra, achievements (state (snd (make_choice ios eng choice_index w)))
                 = (achievements (state w) ++ extra)%list) /\
  (exists extra, history (state (snd (make_choice ios eng choice_index w)))
                 = (history (state w) ++ extra)%list).
Proof.
  apply (make_choice_closed
           (fun w1 => (exists extra, achievements (state w1) = (achievements (state w) ++ extra)%list) /\
                      (exists extra, history (state w1) = (history (state w) ++ extra)%list))).
  - split; intros w1; intros; split_state w1;
      repeat match goal with H : _ /\ _ |- _ => destruct H end;
      try (split; assumption).
    split; [| assumption].
    match goal with H : exists _, achievements0 = _ |- _ => destruct H as [extra ->] end.
    eexists. now rewrite <- app_assoc.
  - intros w1 e [Ha [extra Hh]]. split_state w1. split; [exact Ha |].
    subst. eexists. now rewrite <- app_assoc.
  - split; exists []; now rewrite app_nil_r.
Qed.

Lemma save_game_result (fs : FileSystem) (eng : Engine) (slot_name now : string) (w : World) :
  save_game fs eng slot_name now w =
  match file_of fs (slot_name +:+ ".json") with
  | Some f =>
      if writable fs (slot_name +:+ ".json")
      then (Ok (path_str fs (slot_name +:+ ".json")),
            {| state := state w;
               events := events w ++ [OnSave slot_name];
               files := <[f := JDict [("game_info", JDict (game_info eng));
                                      ("state", to_dict (state w));
                                      ("timestamp", JStr now);
                                      ("version", default (JStr "2.0")
                                                    (assoc_get "version" (game_info eng)))]]>
                          (files w) |})
      else (Raise OSError,
            {| state := state w; events := events w ++ [OnSave slot_name]; files := files w |})
  | None =>
      (Raise OSError,
       {| state := state w; events := events w ++ [OnSave slot_name]; files := files w |})
  end.
Proof.
  cbv [save_game bind trigger_hooks get_state write_file ret state events files].
  destruct (file_of fs (slot_name +:+ ".json")); [| reflexivity].
  destruct (writable fs (slot_name +:+ ".json")); reflexivity.
Qed.

(** What [load_game] does, by the file of the slot and what it holds. *)
Lemma load_game_result (fs : FileSystem) (eng : Engine) (slot_name : string) (w : World) :
  load_game fs eng slot_name w =
  match file_of fs (slot_name +:+ ".json") with
  | None => (Ok false, w)
  | Some f =>
      match files w !! f with
      | None => (Ok false, w)
      | Some doc =>
          match res_bind (getitem doc "state") from_dict with
          | Ok st => (Ok true, {| state := st; events := events w ++ [OnLoad slot_name];
                                  files := files w |})
          | Raise e => (Raise e, w)
          end
      end
  end.
Proof.
  unfold load_game. destruct (file_of fs (slot_name +:+ ".json")) as [f |]; [| reflexivity].
  destruct (files w !! f) as [doc |]; [| reflexivity].
  cbv [bind lift modify_state trigger_hooks ret with_state res_bind].
  destruct (getitem doc "state") as [data | e]; [| reflexivity].
  destruct (from_dict data) as [st | e]; reflexivity.
Qed.




(** ** Requirement evaluation, in full *)

Lemma req_check_result (k : string) (d : list (string * json)) test (w : World) :
  req_check k (JDict d) test w =
  (match assoc_get k d with Some v => test v (state w) | None => Ok true end, w).
Proof.
  cbv [req_check bind lift key_in getitem get_state ret].
  destruct (assoc_get k d) as [v |]; [| reflexivity].
  destruct (test v (state w)); reflexivity.
Qed.

Lemma and_then_req_true (k : string) (d : list (string * json)) test
    (rest : M bool) (w : World) :
  (req_check k (JDict d) test &> rest) w = (Ok true, w) <->
  (forall v, assoc_get k d = Some v -> test v (state w) = Ok true) /\
  rest w = (Ok true, w).
Proof.
  unfold and_then, bind. rewrite req_check_result.
  destruct (assoc_get k d) as [v |].
  - destruct (test v (state w)) as [[|] | e] eqn:Ht.
    + split; [intros H; split; [intros v' Hv; congruence | exact H] | intros [_ H]; exact H].
    + split; [discriminate | intros [H _]; specialize (H v eq_refl); congruence].
    + split; [discriminate | intros [H _]; specialize (H v eq_refl); congruence].
  - split; [intros H; split; [discriminate | exact H] | intros [_ H]; exact H].
Qed.

Lemma visited_scene_last_true (d : list (string * json)) (w : World) :
  (check_visited_scene (JDict d) &> ret true) w = (Ok true, w) <->
  assoc_get "visited_scene" d = None.
Proof.
  cbv [and_then check_visited_scene bind lift key_in ret get_state].
  destruct (assoc_get "visited_scene" d) as [v |].
  - destruct (history (state w)); split; discriminate.
  - split; reflexivity.
Qed.

Lemma check_requirements_true_iff (d : list (string * json)) (w : World) :
  check_requirements (JDict d) w = (Ok true, w) <->
  Forall (test_passes d (state w)) requirement_tests /\
  assoc_get "visited_scene" d = None.
Proof.
  unfold requirement_tests. rewrite !Forall_cons, Forall_nil. unfold test_passes.
  cbn [fst snd].
  destruct d as [| kv d'].
  - split; [intros _ | reflexivity]. repeat split; discriminate.
  - unfold check_requirements. change (negb (truthy (JDict (kv :: d')))) with false.
    cbv iota. cbn [stat_range_checks range_stats String.append].
    rewrite !and_then_req_true, visited_scene_last_true. tauto.
Qed.

Lemma granted_tests (d : list (string * json)) (w w' : World) :
  check_requirements (JDict d) w = (Ok true, w') ->
  Forall (test_passes d (state w)) requirement_tests /\
  assoc_get "visited_scene" d = None.
Proof.
  intros H. pose proof (check_requirements_readonly (JDict d) w) as Hro.
  rewrite H in Hro. simpl in Hro. subst w'. now apply check_requirements_true_iff.
Qed.

Lemma granted_test (d : list (string * json)) (w w' : World) (k : string) test (v : json) :
  check_requirements (JDict d) w = (Ok true, w') ->
  In (k, test) requirement_tests ->
  assoc_get k d = Some v ->
  test v (state w) = Ok true.
Proof.
  intros H Hin Hget. apply granted_tests in H as [H _].
  rewrite Forall_forall in H. exact (H (k, test) ltac:(now apply list_elem_of_In) v Hget).
Qed.

(** X6: a requirement set is the conjunction of its recognized
    predicates: [_check_requirements] returns true exactly when every
    recognized key the set has passes its own test without raising, and the
    set has no 'visited_scene' key (that test can never be passed). *)
Theorem requirements_are_a_conjunction (d : list (string * json)) (w : World) :
  fst (check_requirements (JDict d) w) = Ok true <->
  Forall (test_passes d (state w)) requirement_tests /\
  assoc_get "visited_scene" d = None.
Proof.
  split.
  - intros H. apply (granted_tests d w (snd (check_requirements (JDict d) w))).
    rewrite <- H. now destruct (check_requirements (JDict d) w).
  - intros H. apply check_requirements_true_iff in H. now rewrite H.
Qed.

(** X7: when a requirement set is granted, its item and achievement
    requirements hold of the state: the 'has_item' value is in the
    inventory, every element of a 'has_all_items' list is, some element of
    a 'has_any_item' list is, and the 'has_achievement' value is among the
    achievements. *)
Theorem granted_items_are_held (d : list (string * json)) (w w' : World) :
  check_requirements (JDict d) w = (Ok true, w') ->
  (forall v, assoc_get "has_item" d = Some v ->
     py_in_list v (inventory (state w)) = true) /\
  (forall l x, assoc_get "has_all_items" d = Some (JList l) -> In x l ->
     py_in_list x (inventory (state w)) = true) /\
  (forall l, assoc_get "has_any_item" d = Some (JList l) ->
     exists x, In x l /\ py_in_list x (inventory (state w)) = true) /\
  (forall v, assoc_get "has_achievement" d = Some v ->
     py_in_list v (achievements (state w)) = true).
Proof.
  intros H. repeat split.
  - intros v Hv.
    pose proof (granted_test d w w' "has_item" test_has_item v H ltac:(simpl; tauto) Hv) as Ht.
    now injection Ht.
  - intros l x Hl Hx.
    pose proof (granted_test d w w' "has_all_items" test_has_all_items _ H
                  ltac:(simpl; tauto) Hl) as Ht.
    injection Ht as Ht. rewrite forallb_forall in Ht. now apply Ht.
  - intros l Hl.
    pose proof (granted_test d w w' "has_any_item" test_has_any_item _ H
                  ltac:(simpl; tauto) Hl) as Ht.
    injection Ht as Ht. now apply existsb_exists in Ht.
  - intros v Hv.
    pose proof (granted_test d w w' "has_achievement" test_has_achievement v H
                  ltac:(simpl; tauto) Hv) as Ht.
    now injection Ht.
Qed.

Lemma granted_items_are_held_witness :
  py_in_list (JStr "key")
    (inventory (state (with_state fresh_world
                         (set_inventory [JStr "rope"; JStr "key"] default_state)))) = true.
Proof.
  apply (granted_items_are_held
           [("has_item", JStr "key"); ("has_any_item", JList [JStr "lamp"; JStr "rope"])]
           (with_state fresh_world (set_inventory [JStr "rope"; JStr "key"] default_state))
           (with_state fresh_world (set_inventory [JStr "rope"; JStr "key"] default_state))).
  - vm_compute. reflexivity.
  - reflexivity.
Defined.

(** X8: when a requirement set is granted, every integer bound it
    gives on morality, size, hp, knowledge or gold holds: the stat is at
    least its '_min' bound and at most its '_max' bound. *)
Theorem granted_stat_bounds_hold (d : list (string * json)) (w w' : World)
    (stat : string) (field : GameState -> Z) :
  check_requirements (JDict d) w = (Ok true, w') ->
  In (stat, field) range_stats ->
  (forall n, assoc_get (stat +:+ "_min") d = Some (JInt n) -> n <= field (state w)) /\
  (forall n, assoc_get (stat +:+ "_max") d = Some (JInt n) -> field (state w) <= n).
Proof.
  intros H Hin.
  assert (Hmin : In (stat +:+ "_min", test_min field) requirement_tests).
  { simpl in Hin. destruct Hin as [Hs | [Hs | [Hs | [Hs | [Hs | []]]]]];
      injection Hs as <- <-; simpl; tauto. }
  assert (Hmax : In (stat +:+ "_max", test_max field) requirement_tests).
  { simpl in Hin. destruct Hin as [Hs | [Hs | [Hs | [Hs | [Hs | []]]]]];
      injection Hs as <- <-; simpl; tauto. }
  split; intros n Hn.
  - pose proof (granted_test d w w' _ _ _ H Hmin Hn) as Ht.
    injection Ht as Ht. apply negb_true_iff in Ht. now apply Z.ltb_ge in Ht.
  - pose proof (granted_test d w w' _ _ _ H Hmax Hn) as Ht.
    injection Ht as Ht. apply negb_true_iff in Ht. rewrite Z.gtb_ltb in Ht.
    now apply Z.ltb_ge in Ht.
Qed.

Lemma granted_stat_bounds_hold_witness :
  (forall n, assoc_get ("hp" +:+ "_min") [("hp_min", JInt 50); ("hp_max", JInt 100)]
             = Some (JInt n) -> n <= hp (state fresh_world)) /\
  (forall n, assoc_get ("hp" +:+ "_max") [("hp_min", JInt 50); ("hp_max", JInt 100)]
             = Some (JInt n) -> hp (state fresh_world) <= n).
Proof.
  apply (granted_stat_bounds_hold [("hp_min", JInt 50); ("hp_max", JInt 100)]
           fresh_world fresh_world "hp" hp).
  - vm_compute. reflexivity.
  - simpl. tauto.
Defined.

(** X9: when a requirement set is granted, its flag requirements hold:
    for 'flag' given as the pair [name, value], the value stored under the
    name ([None] when the flag is not set) equals the value; the 'flag_set'
    name is set; the 'flag_not_set' name is not. *)
Theorem granted_flags_hold (d : list (string * json)) (w w' : World) :
  check_requirements (JDict d) w = (Ok true, w') ->
  (forall name v, assoc_get "flag" d = Some (JList [JStr name; v]) ->
     py_eq (default JNull (flags (state w) !! name)) v = true) /\
  (forall name, assoc_get "flag_set" d = Some (JStr name) ->
     is_Some (flags (state w) !! name)) /\
  (forall name, assoc_get "flag_not_set" d = Some (JStr name) ->
     flags (state w) !! name = None).
Proof.
  intros H. repeat split.
  - intros name v Hv.
    pose proof (granted_test d w w' "flag" test_flag _ H ltac:(simpl; tauto) Hv) as Ht.
    now injection Ht.
  - intros name Hv.
    pose proof (granted_test d w w' "flag_set" test_flag_set _ H ltac:(simpl; tauto) Hv) as Ht.
    injection Ht as Ht. now apply bool_decide_eq_true in Ht.
  - intros name Hv.
    pose proof (granted_test d w w' "flag_not_set" test_flag_not_set _ H
                  ltac:(simpl; tauto) Hv) as Ht.
    injection Ht as Ht. apply negb_true_iff, bool_decide_eq_false in Ht.
    now apply eq_None_not_Some.
Qed.

Lemma granted_flags_hold_witness :
  py_eq (default JNull (flags (state fresh_world) !! "door_open")) JNull = true.
Proof.
  apply (granted_flags_hold
           [("flag", JList [JStr "door_open"; JNull]); ("flag_not_set", JStr "alarm")]
           fresh_world fresh_world).
  - vm_compute. reflexivity.
  - reflexivity.
Defined.

(** ** Available choices, rendering and choosing *)

Lemma filter_choices_result (cs : list Choice) (w : World) :
  (forall c e, In c cs -> fst (check_requirements (requirements c) w) <> Raise e) ->
  filter_choices cs w = (Ok (List.filter (requirement_met w) cs), w).
Proof.
  induction cs as [| c cs IH]; intros Hsafe; [reflexivity |].
  simpl. unfold bind, requirement_met at 1.
  pose proof (check_requirements_readonly (requirements c) w) as Hro.
  pose proof (Hsafe c) as Hc.
  destruct (check_requirements (requirements c) w) as [[ok | e] w1]; simpl in *; subst w1.
  - rewrite IH by (intros c' e' Hin; apply Hsafe; now right).
    now destruct ok.
  - exfalso. apply (Hc e); [now left | reflexivity].
Qed.

Lemma filter_choices_raises (cs : list Choice) (c : Choice) (e : exn) (w : World) :
  In c cs ->
  fst (check_requirements (requirements c) w) = Raise e ->
  exists e', filter_choices cs w = (Raise e', w).
Proof.
  intros Hin Hraise. induction cs as [| c0 cs IH]; [destruct Hin |].
  simpl. unfold bind.
  pose proof (check_requirements_readonly (requirements c0) w) as Hro.
  destruct (check_requirements (requirements c0) w) as [[ok | e0] w1] eqn:Hc0;
    simpl in Hro; subst w1.
  - destruct Hin as [-> | Hin].
    + rewrite Hc0 in Hraise. discriminate.
    + destruct (IH Hin) as [e' ->]. now exists e'.
  - now exists e0.
Qed.

(** X10: when no requirement of the current scene's choices raises,
    [get_available_choices] returns exactly the choices of the scene whose
    requirements evaluate to true, in the order the scene lists them, and
    the empty list when the current scene is not in the script; the world
    is unchanged. *)
Theorem available_choices_are_the_granted_ones (eng : Engine) (w : World) :
  (forall sc c e, scenes eng !! current_scene (state w) = Some sc ->
     In c (choices sc) -> fst (check_requirements (requirements c) w) <> Raise e) ->
  get_available_choices eng w =
  (Ok match scenes eng !! current_scene (state w) with
      | Some sc => List.filter (requirement_met w) (choices sc)
      | None => []
      end, w).
Proof.
  intros Hsafe. cbv [get_available_choices bind get_current_scene get_state ret].
  destruct (scenes eng !! current_scene (state w)) as [sc |]; [| reflexivity].
  apply filter_choices_result. intros c e. now apply Hsafe.
Qed.

Lemma available_choices_are_the_granted_ones_witness :
  get_available_choices demo_engine fresh_world =
  (Ok match scenes demo_engine !! current_scene (state fresh_world) with
      | Some sc => List.filter (requirement_met fresh_world) (choices sc)
      | None => []
      end, fresh_world).
Proof.
  apply available_choices_are_the_granted_ones.
  intros sc c e Hsc Hin. vm_compute in Hsc. injection Hsc as <-.
  destruct Hin as [<- | [<- | []]]; vm_compute; discriminate.
Defined.

(** X11: one choice whose requirements raise makes the whole scene
    unusable: [get_available_choices], [render_scene] and [make_choice]
    (for every index, also for the other choices) all raise, and the world
    is left unchanged. *)
Theorem raising_requirement_blocks_scene ios eng (w : World) (sc : Scene)
    (c : Choice) (e : exn) :
  scenes eng !! current_scene (state w) = Some sc ->
  In c (choices sc) ->
  fst (check_requirements (requirements c) w) = Raise e ->
  exists e',
    get_available_choices eng w = (Raise e', w) /\
    render_scene eng w = (Raise e', w) /\
    forall choice_index, make_choice ios eng choice_index w = (Raise e', w).
Proof.
  intros Hsc Hin Hraise.
  destruct (filter_choices_raises (choices sc) c e w Hin Hraise) as [e' He'].
  assert (Hav : get_available_choices eng w = (Raise e', w)).
  { cbv [get_available_choices bind get_current_scene get_state ret]. now rewrite Hsc. }
  exists e'. split; [exact Hav |]. split.
  - unfold render_scene.
    rewrite (bind_ok _ _ w w (Some sc))
      by (cbv [get_current_scene bind get_state ret]; now rewrite Hsc).
    unfold bind. now rewrite Hav.
  - intros idx. unfold make_choice, bind. now rewrite Hav.
Qed.

Lemma raising_requirement_blocks_scene_witness :
  exists e',
    get_available_choices crossroads_engine visited_world = (Raise e', visited_world) /\
    render_scene crossroads_engine visited_world = (Raise e', visited_world) /\
    forall choice_index,
      make_choice demo_int crossroads_engine choice_index visited_world
      = (Raise e', visited_world).
Proof.
  apply (raising_requirement_blocks_scene demo_int crossroads_engine visited_world
           crossroads return_choice NameError).
  - reflexivity.
  - simpl. tauto.
  - reflexivity.
Defined.

Lemma index_choices_lookup (cs : list Choice) (k i : Z) (t : string) :
  In (i, t) (index_choices k cs) ->
  exists c, cs !! Z.to_nat (i - k) = Some c /\ text c = t /\ k <= i.
Proof.
  revert k. induction cs as [| c cs IH]; intros k Hin; [destruct Hin |].
  destruct Hin as [Heq | Hin].
  - injection Heq as <- <-. exists c. rewrite Z.sub_diag. repeat split. lia.
  - destruct (IH (k + 1) Hin) as (c' & Hget & Ht & Hle).
    exists c'. split; [| split; [exact Ht | lia]].
    replace (Z.to_nat (i - k)) with (S (Z.to_nat (i - (k + 1)))) by lia.
    exact Hget.
Qed.

Lemma index_choices_listed (cs : list Choice) (k i : Z) :
  k <= i < k + Z.of_nat (length cs) ->
  exists t, In (i, t) (index_choices k cs).
Proof.
  revert k. induction cs as [| c cs IH]; intros k Hi; [simpl in Hi; lia |].
  destruct (Z.eq_dec i k) as [-> | Hne].
  - exists (text c). now left.
  - destruct (IH (k + 1)) as [t Ht].
    + simpl length in Hi. lia.
    + exists t. now right.
Qed.

Lemma render_scene_shown (eng : Engine) (w w' : World) (v : SceneView) :
  render_scene eng w = (Ok (SceneShown v), w') ->
  exists available,
    get_available_choices eng w = (Ok available, w) /\
    view_choices v = index_choices 0 available.
Proof.
  intros H. unfold render_scene in H.
  apply bind_inv in H as (scene & w1 & Hscene & H).
  cbv [get_current_scene bind get_state ret] in Hscene. injection Hscene as <- <-.
  destruct (scenes eng !! current_scene (state w)) as [sc |]; [| discriminate H].
  apply bind_inv in H as (available & w1 & Hav & H).
  pose proof (get_available_choices_readonly eng w) as Hro.
  rewrite Hav in Hro. simpl in Hro. subst w1.
  exists available. split; [exact Hav |].
  cbv [bind get_state ret] in H. now injection H as <- _.
Qed.

(** X12: the indices [render_scene] shows are exactly the ones
    [make_choice] accepts.  For a shown entry (i, text), [make_choice i]
    performs the transition of an available choice with that text; for an
    index that is not shown, [make_choice] returns [False] and changes
    nothing. *)
Theorem rendered_indices_are_the_accepted_ones ios eng (w w' : World) (v : SceneView) :
  render_scene eng w = (Ok (SceneShown v), w') ->
  (forall i t, In (i, t) (view_choices v) ->
     exists c, text c = t /\ make_choice ios eng i w = take_choice ios eng c w) /\
  (forall i, (forall t, ~ In (i, t) (view_choices v)) ->
     make_choice ios eng i w = (Ok false, w)).
Proof.
  intros H. apply render_scene_shown in H as (available & Hav & Hview).
  rewrite Hview. split.
  - intros i t Hin.
    destruct (index_choices_lookup available 0 i t Hin) as (c & Hget & Ht & Hpos).
    rewrite Z.sub_0_r in Hget. exists c. split; [exact Ht |].
    now apply (make_choice_accepted ios eng i available c w).
  - intros i Hnot.
    apply (rejected_index_returns_false ios eng i available w Hav).
    destruct (Z_lt_ge_dec i 0) as [Hneg | Hpos]; [now left | right].
    destruct (Z_lt_ge_dec i (Z.of_nat (length available))) as [Hlt | Hge]; [| lia].
    exfalso. destruct (index_choices_listed available 0 i ltac:(lia)) as [t Ht].
    exact (Hnot t Ht).
Qed.

Lemma rendered_indices_are_the_accepted_ones_witness :
  (forall i t, In (i, t) [(0, "Climb the wall")] ->
     exists c, text c = t /\
       make_choice demo_int demo_engine i fresh_world = take_choice demo_int demo_engine c fresh_world) /\
  (forall i, (forall t, ~ In (i, t) [(0, "Climb the wall")]) ->
     make_choice demo_int demo_engine i fresh_world = (Ok false, fresh_world)).
Proof.
  apply (rendered_indices_are_the_accepted_ones demo_int demo_engine fresh_world fresh_world
           (mkSceneView "The gate" "A locked gate." [(0, "Climb the wall")]
              100 50 100 0 0 [] [] ∅ JNull (JStr "tense") JNull)).
  vm_compute. reflexivity.
Defined.

(** ** Notifications *)

Lemma apply_effects_state_only (P : World -> Prop) ios eng (effects : json) :
  (forall w st, P w -> P (with_state w st)) ->
  preserves P (apply_effects ios eng effects).
Proof.
  intros H. apply apply_effects_preserves; intros; now apply H.
Qed.

Lemma direct_changes_frame (P : World -> Prop) ios eng (choice : Choice) :
  (forall w st, P w -> current_scene st = current_scene (state w) -> P (with_state w st)) ->
  preserves P (direct_changes ios eng choice).
Proof.
  intros H. unfold direct_changes.
  assert (Hk : preserves P (check_knowledge_achievements ios eng)).
  { apply check_knowledge_achievements_preserves. intros; now apply H. }
  apply preserves_bind; [repeat pres_step; intros; now apply H | intros ?].
  apply preserves_bind.
  { apply preserves_when.
    apply preserves_bind; [apply preserves_get_state | intros st].
    apply preserves_bind; [apply preserves_lift | intros d].
    apply preserves_bind; [apply preserves_modify; intros; now apply H | intros ?].
    exact Hk. }
  intros ?.
  apply preserves_bind; [repeat pres_step; intros; now apply H | intros ?].
  repeat pres_step; intros; now apply H.
Qed.

(** X13: a successful [make_choice] sends exactly three notifications,
    in this order: scene exit with the scene left; the choice taken; scene
    enter with, as previous scene, the scene that was current after the
    choice's own effects (the scene left, or the target of a terminal jump
    among those effects), and the scene that is current once the entry
    effects have run.  It writes no save file. *)
Theorem make_choice_notifications ios eng (choice_index : Z) (w w' : World) :
  make_choice ios eng choice_index w = (Ok true, w') ->
  exists choice,
    events w' = (events w ++
                 [OnSceneExit (current_scene (state w));
                  OnChoice choice;
                  OnSceneEnter
                    (if truthy (effects choice)
                     then final_jump (effects choice) (current_scene (state w))
                     else current_scene (state w))
                    (current_scene (state w'))])%list /\
    files w' = files w.
Proof.
  intros H. unfold make_choice in H.
  apply bind_inv in H as (available & w1 & Hav & H).
  assert (Hw1 : w1 = w).
  { pose proof (get_available_choices_readonly eng w) as Hro. now rewrite Hav in Hro. }
  subst w1.
  destruct (Z.ltb choice_index 0 || Z.geb choice_index (Z.of_nat (length available)));
    [discriminate H |].
  destruct (available !! Z.to_nat choice_index) as [choice |]; [| discriminate H].
  exists choice. unfold take_choice in H.
  assert (Hso : forall ev fs, forall w st, (events w = ev /\ files w = fs) ->
                  (events (with_state w st) = ev /\ files (with_state w st) = fs))
    by (intros ev fs w0 st Hw0; exact Hw0).
  apply bind_inv in H as (st0 & wa & Ha & H). injection Ha as <- <-.
  apply bind_inv in H as ([] & wb & Hb & H). injection Hb as <-.
  apply bind_inv in H as ([] & wc & Hc & H). injection Hc as <-.
  apply bind_inv in H as ([] & wd & Hd & H).
  apply bind_inv in H as ([] & we & He & H).
  apply bind_inv in H as ([] & wf & Hf & H). injection Hf as <-.
  apply bind_inv in H as (st1 & wg & Hg & H). injection Hg as <- <-.
  apply bind_inv in H as ([] & wh & Hh & H). injection Hh as <-.
  apply bind_inv in H as (scene & wi & Hi & H).
  cbv [get_current_scene bind get_state ret] in Hi. injection Hi as <- <-.
  apply bind_inv in H as ([] & wj & Hj & H).
  apply bind_inv in H as (st2 & wk & Hk & H). injection Hk as <- <-.
  apply bind_inv in H as ([] & wl & Hl & H). injection Hl as <-.
  injection H as <-.
  assert (Hwd : events wd = (events w ++ [OnSceneExit (current_scene (state w))])%list /\
                files wd = files w).
  { apply (preserves_run _ _ _ _ _
             (preserves_when _ _ _ (apply_effects_state_only _ ios eng (effects choice)
                                      (Hso _ _))) Hd).
    split; reflexivity. }
  assert (Hsd : current_scene (state wd) =
                if truthy (effects choice)
                then final_jump (effects choice) (current_scene (state w))
                else current_scene (state w)).
  { destruct (truthy (effects choice)); simpl in Hd.
    - now rewrite (apply_effects_scene _ _ _ _ _ Hd).
    - now injection Hd as <-. }
  assert (Hwe : (events we = (events w ++ [OnSceneExit (current_scene (state w))])%list /\
                 files we = files w) /\
                current_scene (state we) = current_scene (state wd)).
  { set (Q := fun w1 : World =>
                  (events w1 = (events w ++ [OnSceneExit (current_scene (state w))])%list /\
                   files w1 = files w) /\
                  current_scene (state w1) = current_scene (state wd)).
    assert (HQ : forall w0 st, Q w0 -> current_scene st = current_scene (state w0) ->
                   Q (with_state w0 st)).
    { intros w0 st [Hw0 Hs0] Hst. split; [exact Hw0 | simpl; congruence]. }
    apply (preserves_run Q _ _ _ _ (direct_changes_frame Q ios eng choice HQ) He).
    split; [exact Hwd | reflexivity]. }
  assert (Hwj : events wj = (events we ++ [OnChoice choice])%list /\ files wj = files we).
  { destruct (scenes eng !! _) as [sc |].
    - apply (preserves_run _ _ _ _ _
               (preserves_when _ _ _ (apply_effects_state_only _ ios eng (on_enter sc)
                                        (Hso _ _))) Hj).
      split; reflexivity.
    - injection Hj as <-. split; reflexivity. }
  destruct Hwe as [[Hev Hfs] Hse]. destruct Hwj as [Hev' Hfs'].
  cbn [events files state]. rewrite Hev', Hev, Hfs', Hfs, Hse, Hsd.
  split; [| reflexivity].
  rewrite <- !app_assoc. reflexivity.
Qed.

Lemma make_choice_notifications_witness :
  exists choice,
    events (snd (make_choice demo_int demo_engine 0 fresh_world)) =
      (events fresh_world ++
       [OnSceneExit (current_scene (state fresh_world));
        OnChoice choice;
        OnSceneEnter
          (if truthy (effects choice)
           then final_jump (effects choice) (current_scene (state fresh_world))
           else current_scene (state fresh_world))
          (current_scene (state (snd (make_choice demo_int demo_engine 0 fresh_world))))])%list /\
    files (snd (make_choice demo_int demo_engine 0 fresh_world)) = files fresh_world.
Proof.
  apply (make_choice_notifications demo_int demo_engine 0 fresh_world).
  vm_compute. reflexivity.
Defined.

(** In the demo script the choice's own effects say 'victory', so the
    scene-enter notification names "victory" as the previous scene, not
    "start". *)
Example demo_enter_notification :
  events (snd (make_choice demo_int demo_engine 0 fresh_world)) =
  [OnSceneExit "start";
   OnChoice (mkChoice "Climb the wall" "pit" JNull
               (JDict [("hp_change", JInt (-20)); ("victory", JBool true)])
               (JInt 10) JNull JNull JNull);
   OnSceneEnter "victory" "game_over"].
Proof. reflexivity. Qed.

(** ** Effects and the requirements they satisfy *)

Lemma foreign_keys_absent (keys : list string) (d : list (string * json)) (k : string) :
  forallb (fun kv => negb (existsb (String.eqb (fst kv)) keys)) d = true ->
  In k keys -> assoc_get k d = None.
Proof.
  intros Hd Hk. induction d as [| [k' v] d IH]; [reflexivity |].
  change (negb (existsb (String.eqb k') keys) &&
          forallb (fun kv => negb (existsb (String.eqb (fst kv)) keys)) d = true) in Hd.
  apply andb_prop in Hd as [Hk' Hd].
  change (assoc_get k ((k', v) :: d)) with
    (if String.eqb k k' then Some v else assoc_get k d).
  destruct (String.eqb_spec k k') as [-> | Hne]; [| now apply IH].
  exfalso. apply negb_true_iff in Hk'.
  assert (Hex : existsb (String.eqb k') keys = true).
  { apply existsb_exists. exists k'. split; [exact Hk | apply String.eqb_refl]. }
  congruence.
Qed.

(** X14: an effect set none of whose keys is an effect key is applied
    without raising and changes nothing: unknown effect keys are ignored. *)
Theorem unknown_effect_keys_ignored ios eng (d : list (string * json)) (w : World) :
  no_effect_key d = true ->
  apply_effects ios eng (JDict d) w = (Ok tt, w).
Proof.
  intros Hd.
  assert (Habs : forall k, In k effect_keys -> assoc_get k d = None)
    by (intros k; now apply foreign_keys_absent).
  cbv [apply_effects effects_items effects_stats effects_custom_stats effects_flags
       effects_achievements effects_special bind if_key lift key_in when ret].
  repeat match goal with
         | |- context [assoc_get ?k d] => rewrite (Habs k) by (simpl; tauto)
         end.
  reflexivity.
Qed.

Lemma unknown_effect_keys_ignored_witness :
  apply_effects demo_int demo_engine
    (JDict [("play_sound", JStr "thunder"); ("hp", JInt (-50))]) fresh_world
  = (Ok tt, fresh_world).
Proof. apply unknown_effect_keys_ignored. reflexivity. Defined.

Lemma py_in_list_app_l (x : json) (l l' : list json) :
  py_in_list x l = true -> py_in_list x (l ++ l') = true.
Proof. unfold py_in_list. intros H. now rewrite existsb_app, H. Qed.

Lemma py_in_list_snoc_str (s : string) (l : list json) :
  py_in_list (JStr s) (l ++ [JStr s]) = true.
Proof.
  unfold py_in_list. rewrite existsb_app. simpl. rewrite String.eqb_refl.
  now rewrite orb_true_r.
Qed.

Lemma add_to_inventory_keeps_item (x item : json) :
  preserves (fun w => py_in_list x (inventory (state w)) = true) (add_to_inventory item).
Proof.
  intros w Hw. unfold add_to_inventory. run_body; [| exact Hw].
  now apply py_in_list_app_l.
Qed.

(** X15: when an effect set has 'add_item' with a string and no
    'remove_item', the item is in the inventory once [_apply_effects] is
    over (even if a later effect of the set raised), and a 'has_item'
    requirement for it is then granted. *)
Theorem added_item_meets_requirement ios eng (d : list (string * json))
    (s : string) (w : World) :
  assoc_get "add_item" d = Some (JStr s) ->
  assoc_get "remove_item" d = None ->
  py_in_list (JStr s) (inventory (state (snd (apply_effects ios eng (JDict d) w)))) = true /\
  check_requirements (JDict [("has_item", JStr s)]) (snd (apply_effects ios eng (JDict d) w))
  = (Ok true, snd (apply_effects ios eng (JDict d) w)).
Proof.
  intros Hadd Hrm.
  set (Q := fun w : World => py_in_list (JStr s) (inventory (state w)) = true).
  assert (HQ : Q (snd (apply_effects ios eng (JDict d) w))).
  { unfold apply_effects.
    assert (Hitems : forall w0, Q (snd (effects_items (JDict d) w0))).
    { intros w0. unfold effects_items.
      assert (H1 : Q (snd (if_key "add_item" (JDict d) add_to_inventory w0))).
      { cbv [if_key bind lift key_in getitem]. rewrite Hadd.
        unfold add_to_inventory. run_body; [apply py_in_list_snoc_str |].
        unfold Q. match goal with H : negb _ = false |- _ => now apply negb_false_iff in H end. }
      unfold bind at 1.
      destruct (if_key "add_item" (JDict d) add_to_inventory w0) as [[[] | e] w1];
        [| exact H1].
      simpl in H1. revert w1 H1.
      apply preserves_bind.
      - apply preserves_if_key. intros v _. apply preserves_bind_lift. intros items _.
        apply preserves_for_each. intros item. apply add_to_inventory_keeps_item.
      - intros ? w1 Hw1. cbv [if_key bind lift key_in]. now rewrite Hrm. }
    unfold bind at 1. specialize (Hitems w).
    destruct (effects_items (JDict d) w) as [[[] | e] w1]; [| exact Hitems].
    simpl in Hitems. revert w1 Hitems.
    apply preserves_bind;
      [apply effects_stats_preserves; intros w0 x Hw0; try intros _; exact Hw0 | intros ?].
    apply preserves_bind;
      [apply effects_custom_stats_preserves; intros w0 x Hw0; exact Hw0 | intros ?].
    apply preserves_bind;
      [apply effects_flags_preserves; intros w0 x Hw0; exact Hw0 | intros ?].
    apply preserves_bind;
      [apply effects_achievements_preserves; intros w0 x Hw0; exact Hw0 | intros ?].
    apply effects_special_preserves; intros w0 x Hw0; exact Hw0. }
  split; [exact HQ |].
  apply check_requirements_true_iff. split; [| reflexivity].
  unfold requirement_tests.
  repeat (apply Forall_cons; split; [intros v Hv; try discriminate Hv |]);
    [| now apply Forall_nil].
  injection Hv as <-. unfold snd, test_has_item. now rewrite HQ.
Qed.

Lemma added_item_meets_requirement_witness :
  py_in_list (JStr "key") (inventory (state (snd (apply_effects demo_int demo_engine
     (JDict [("add_item", JStr "key"); ("hp_change", JStr "oops")]) fresh_world)))) = true /\
  check_requirements (JDict [("has_item", JStr "key")])
    (snd (apply_effects demo_int demo_engine
       (JDict [("add_item", JStr "key"); ("hp_change", JStr "oops")]) fresh_world))
  = (Ok true, snd (apply_effects demo_int demo_engine
       (JDict [("add_item", JStr "key"); ("hp_change", JStr "oops")]) fresh_world)).
Proof. apply added_item_meets_requirement; reflexivity. Defined.

Lemma assoc_get_app {A : Type} (k : string) (d d' : list (string * A)) :
  assoc_get k (d ++ d') =
  match assoc_get k d with
  | Some v => Some v
  | None => assoc_get k d'
  end.
Proof.
  induction d as [| [k' v] d IH]; [reflexivity |].
  simpl. now destruct (String.eqb k k').
Qed.

Lemma set_flag_loop (fl : list (string * json)) (w : World) :
  exists w1,
    for_each fl (fun '(flag, value) =>
      modify_state (fun st => set_flags (<[flag := value]> (flags st)) st)) w = (Ok tt, w1) /\
    forall f, flags (state w1) !! f =
              match assoc_get f (rev fl) with
              | Some v => Some v
              | None => flags (state w) !! f
              end.
Proof.
  revert w. induction fl as [| [k v0] fl IH]; intros w.
  - exists w. split; reflexivity.
  - simpl for_each. unfold bind at 1. cbv [modify_state].
    destruct (IH (with_state w (set_flags (<[k := v0]> (flags (state w))) (state w))))
      as (w1 & Hrun & Hlook).
    exists w1. split; [exact Hrun |].
    intros f. rewrite Hlook. simpl rev. rewrite assoc_get_app.
    destruct (assoc_get f (rev fl)); [reflexivity |].
    simpl. destruct (String.eqb_spec f k) as [-> | Hne].
    + apply lookup_insert_eq.
    + now apply lookup_insert_ne.
Qed.

(** X16: when [_apply_effects] returns and the set has 'set_flag' with
    a mapping, a flag of that mapping holds afterwards the value of its
    last binding there, provided 'clear_flag' does not name it; a
    'flag_set' requirement for it is then granted. *)
Theorem set_flag_meets_requirement ios eng (d fl : list (string * json))
    (f : string) (v : json) (w w' : World) :
  apply_effects ios eng (JDict d) w = (Ok tt, w') ->
  assoc_get "set_flag" d = Some (JDict fl) ->
  assoc_get f (rev fl) = Some v ->
  assoc_get "clear_flag" d <> Some (JStr f) ->
  flags (state w') !! f = Some v /\
  check_requirements (JDict [("flag_set", JStr f)]) w' = (Ok true, w').
Proof.
  intros H Hset Hf Hclear.
  assert (Hflag : flags (state w') !! f = Some v).
  { unfold apply_effects in H.
    apply bind_inv in H as ([] & w1 & _ & H).
    apply bind_inv in H as ([] & w2 & _ & H).
    apply bind_inv in H as ([] & w3 & _ & H).
    apply bind_inv in H as ([] & w4 & H4 & H).
    apply bind_inv in H as ([] & w5 & H5 & H).
    assert (Hw4 : flags (state w4) !! f = Some v).
    { unfold effects_flags in H4.
      apply bind_inv in H4 as ([] & w3' & Hs & Hc).
      assert (Hw3' : flags (state w3') !! f = Some v).
      { cbv [if_key bind lift key_in getitem py_items] in Hs. rewrite Hset in Hs.
        destruct (set_flag_loop fl w3) as (wx & Hrun & Hlook).
        rewrite Hrun in Hs. injection Hs as <-. now rewrite Hlook, Hf. }
      revert Hc. cbv [if_key bind lift key_in getitem get_state when modify_state ret].
      destruct (assoc_get "clear_flag" d) as [c |]; [| now intros [= <-]].
      destruct c; simpl; try (now intros [= <-]); try discriminate.
      destruct (bool_decide (is_Some (flags (state w3') !! s))); intros [= <-];
        [| exact Hw3'].
      simpl. rewrite lookup_delete_ne; [exact Hw3' | congruence]. }
    apply (preserves_run (fun w => flags (state w) !! f = Some v)) in H5;
      [| apply effects_achievements_preserves; intros w0 l Hw0; exact Hw0 | exact Hw4].
    apply (preserves_run (fun w => flags (state w) !! f = Some v)) in H;
      [exact H | apply effects_special_preserves; intros w0 l Hw0; exact Hw0 | exact H5]. }
  split; [exact Hflag |].
  apply check_requirements_true_iff. split; [| reflexivity].
  unfold requirement_tests.
  repeat (apply Forall_cons; split; [intros v' Hv; try discriminate Hv |]);
    [| now apply Forall_nil].
  injection Hv as <-. cbv [snd test_flag_set in_flags hash_key res_bind].
  rewrite Hflag. reflexivity.
Qed.

Lemma set_flag_meets_requirement_witness :
  flags (state (snd (apply_effects demo_int demo_engine
     (JDict [("set_flag", JDict [("door_open", JBool true)]); ("clear_flag", JStr "alarm")])
     fresh_world))) !! "door_open" = Some (JBool true) /\
  check_requirements (JDict [("flag_set", JStr "door_open")])
    (snd (apply_effects demo_int demo_engine
       (JDict [("set_flag", JDict [("door_open", JBool true)]); ("clear_flag", JStr "alarm")])
       fresh_world))
  = (Ok true,
     snd (apply_effects demo_int demo_engine
       (JDict [("set_flag", JDict [("door_open", JBool true)]); ("clear_flag", JStr "alarm")])
       fresh_world)).
Proof.
  apply (set_flag_meets_requirement demo_int demo_engine
           [("set_flag", JDict [("door_open", JBool true)]); ("clear_flag", JStr "alarm")]
           [("door_open", JBool true)] "door_open" (JBool true) fresh_world).
  - vm_compute. reflexivity.
  - reflexivity.
  - reflexivity.
  - simpl. discriminate.
Defined.

(** ** Knowledge milestones *)

Lemma check_knowledge_achievements_loop ios eng :
  check_knowledge_achievements ios eng =
  (let* items := lift (py_items (default (JDict []) (assoc_get "knowledge_milestones" (config eng)))) in
   for_each items (milestone_step ios)).
Proof.
  unfold check_knowledge_achievements, milestone_step. f_equal.
Qed.

Lemma for_each_cons {A : Type} (x : A) (l : list A) (body : A -> M unit) (w : World) :
  for_each (x :: l) body w =
  match body x w with
  | (Ok _, w') => for_each l body w'
  | (Raise e, w') => (Raise e, w')
  end.
Proof. reflexivity. Qed.

(** One milestone: what the step returns and how it leaves the world. *)
Lemma milestone_step_result ios (t : string) (a : json) (w : World) :
  milestone_step ios (t, a) w =
  match ios t with
  | None => (Raise ValueError, w)
  | Some n =>
      (Ok tt,
       if Z.geb (knowledge (state w)) n && negb (py_in_list a (achievements (state w)))
       then with_state w (set_achievements (achievements (state w) ++ [a]) (state w))
       else w)
  end.
Proof.
  cbv [milestone_step bind lift get_state when modify_state ret].
  destruct (ios t) as [n |]; [| reflexivity].
  now destruct (Z.geb (knowledge (state w)) n && negb (py_in_list a (achievements (state w)))).
Qed.

(** The loop changes nothing but the achievements, and only adds to them. *)
Lemma milestone_loop_grows ios (items : list (string * json)) (w w1 : World) (r : res unit) :
  for_each items (milestone_step ios) w = (r, w1) ->
  knowledge (state w1) = knowledge (state w) /\
  forall x, py_in_list x (achievements (state w)) = true ->
            py_in_list x (achievements (state w1)) = true.
Proof.
  revert w. induction items as [| [t a] items IH]; intros w H.
  - injection H as _ <-. now split.
  - rewrite for_each_cons, milestone_step_result in H.
    destruct (ios t) as [n |]; [| injection H as _ <-; now split].
    apply IH in H as [Hk Hin].
    destruct (Z.geb (knowledge (state w)) n && negb (py_in_list a (achievements (state w)))).
    + split; [exact Hk |]. intros x Hx. apply Hin. simpl. now apply py_in_list_app_l.
    + now split.
Qed.

Lemma milestone_loop_grants ios (items : list (string * json)) (w w1 : World) :
  for_each items (milestone_step ios) w = (Ok tt, w1) ->
  forall t s n, In (t, JStr s) items -> ios t = Some n -> n <= knowledge (state w) ->
    py_in_list (JStr s) (achievements (state w1)) = true.
Proof.
  revert w. induction items as [| [t0 a0] items IH]; intros w H t s n Hin Ht Hn;
    [destruct Hin |].
  rewrite for_each_cons, milestone_step_result in H.
  destruct (ios t0) as [n0 |] eqn:Ht0; [| discriminate H].
  destruct Hin as [Heq | Hin].
  - injection Heq as -> ->. rewrite Ht in Ht0. injection Ht0 as <-.
    apply milestone_loop_grows in H as [_ Hmono]. apply Hmono.
    assert (Hge : Z.geb (knowledge (state w)) n = true)
      by (rewrite Z.geb_leb; now apply Z.leb_le).
    rewrite Hge. simpl andb.
    destruct (py_in_list (JStr s) (achievements (state w))) eqn:Hs; simpl.
    + exact Hs.
    + apply py_in_list_snoc_str.
  - apply (IH _ H t s n Hin Ht).
    destruct (Z.geb (knowledge (state w)) n0 && negb (py_in_list a0 (achievements (state w))));
      exact Hn.
Qed.

(** X17: when [_check_knowledge_achievements] returns, every milestone
    of the configuration whose threshold is at or below the current
    knowledge has its (string) achievement among the achievements;
    knowledge itself is unchanged and no achievement was removed. *)
Theorem reached_milestones_granted ios eng (items : list (string * json)) (w w' : World) :
  assoc_get "knowledge_milestones" (config eng) = Some (JDict items) ->
  check_knowledge_achievements ios eng w = (Ok tt, w') ->
  knowledge (state w') = knowledge (state w) /\
  (forall x, py_in_list x (achievements (state w)) = true ->
             py_in_list x (achievements (state w')) = true) /\
  (forall t s n, In (t, JStr s) items -> ios t = Some n -> n <= knowledge (state w) ->
     py_in_list (JStr s) (achievements (state w')) = true).
Proof.
  intros Hcfg H. rewrite check_knowledge_achievements_loop, Hcfg in H.
  change (for_each items (milestone_step ios) w = (Ok tt, w')) in H.
  destruct (milestone_loop_grows ios items w w' _ H) as [Hk Hmono].
  split; [exact Hk |]. split; [exact Hmono |].
  now apply milestone_loop_grants.
Qed.

Lemma reached_milestones_granted_witness :
  py_in_list (JStr "Scholar")
    (achievements (state (snd (check_knowledge_achievements demo_int demo_engine
       (with_state fresh_world (set_knowledge 12 default_state)))))) = true.
Proof.
  destruct (reached_milestones_granted demo_int demo_engine [("10", JStr "Scholar")]
              (with_state fresh_world (set_knowledge 12 default_state))
              (snd (check_knowledge_achievements demo_int demo_engine
                      (with_state fresh_world (set_knowledge 12 default_state))))
              eq_refl eq_refl) as (_ & _ & Hgranted).
  apply (Hgranted "10" "Scholar" 10).
  - simpl. tauto.
  - reflexivity.
  - simpl. lia.
Defined.

Lemma milestone_loop_stable ios (items : list (string * json)) :
  string_valued items ->
  forall (w w1 : World) (r : res unit),
    for_each items (milestone_step ios) w = (r, w1) ->
    forall w2,
      knowledge (state w2) = knowledge (state w) ->
      (forall x, py_in_list x (achievements (state w1)) = true ->
                 py_in_list x (achievements (state w2)) = true) ->
      for_each items (milestone_step ios) w2 = (r, w2).
Proof.
  induction items as [| [t a] items IH]; intros Hstr w w1 r H w2 Hk Hsub.
  - injection H as <- _. reflexivity.
  - assert (Hstr' : string_valued items) by (intros t' a' Hin; apply (Hstr t' a'); now right).
    destruct (Hstr t a ltac:(now left)) as [s ->].
    rewrite for_each_cons, milestone_step_result in H.
    rewrite for_each_cons, milestone_step_result.
    destruct (ios t) as [n |]; [| injection H as <- _; reflexivity].
    rewrite Hk.
    assert (Hin2 : Z.geb (knowledge (state w)) n = true ->
                   py_in_list (JStr s) (achievements (state w2)) = true).
    { intros Hge. rewrite Hge in H. simpl andb in H.
      destruct (py_in_list (JStr s) (achievements (state w))) eqn:Hs; simpl in H.
      - apply Hsub. now apply (milestone_loop_grows ios items w w1 r H).
      - apply Hsub. apply (milestone_loop_grows ios items _ w1 r H).
        simpl. apply py_in_list_snoc_str. }
    assert (Hcond2 : Z.geb (knowledge (state w)) n &&
                     negb (py_in_list (JStr s) (achievements (state w2))) = false).
    { destruct (Z.geb (knowledge (state w)) n); [| reflexivity].
      now rewrite (Hin2 eq_refl). }
    rewrite Hcond2.
    apply (IH Hstr' _ w1 r H); [| exact Hsub].
    rewrite Hk.
    now destruct (Z.geb (knowledge (state w)) n && negb (py_in_list (JStr s) (achievements (state w)))).
Qed.

(** X18: with string achievements, [_check_knowledge_achievements] is
    idempotent: run again right after a first run, it has the same outcome
    and changes nothing, so a milestone is never granted twice. *)
Theorem milestones_granted_once ios eng (items : list (string * json)) (w : World) :
  assoc_get "knowledge_milestones" (config eng) = Some (JDict items) ->
  string_valued items ->
  check_knowledge_achievements ios eng (snd (check_knowledge_achievements ios eng w))
  = (fst (check_knowledge_achievements ios eng w),
     snd (check_knowledge_achievements ios eng w)).
Proof.
  intros Hcfg Hstr. rewrite check_knowledge_achievements_loop, Hcfg.
  change (let* items0 := lift (py_items (default (JDict []) (Some (JDict items))))
          in for_each items0 (milestone_step ios))
    with (for_each items (milestone_step ios)).
  destruct (for_each items (milestone_step ios) w) as [r w1] eqn:H. simpl fst. simpl snd.
  apply (milestone_loop_stable ios items Hstr w w1 r H w1).
  - now apply (milestone_loop_grows ios items w w1 r H).
  - auto.
Qed.

Lemma milestones_granted_once_witness :
  check_knowledge_achievements demo_int demo_engine
    (snd (check_knowledge_achievements demo_int demo_engine
            (with_state fresh_world (set_knowledge 12 default_state))))
  = (fst (check_knowledge_achievements demo_int demo_engine
            (with_state fresh_world (set_knowledge 12 default_state))),
     snd (check_knowledge_achievements demo_int demo_engine
            (with_state fresh_world (set_knowledge 12 default_state)))).
Proof.
  apply (milestones_granted_once demo_int demo_engine [("10", JStr "Scholar")]).
  - reflexivity.
  - intros t a [Heq | []]. injection Heq as _ <-. now exists "Scholar".
Defined.

(** ** Save slots, further *)

(** X19: saving to one slot does not disturb another one that is
    another file: for two slot names whose paths denote different files,
    loading the second right after saving to the first has the same
    outcome, and gives the same player state, as loading it without that
    save.  Different names alone do not ensure it: "./a" and "a" are one
    file. *)
Theorem save_leaves_other_slots (fs : FileSystem) (eng : Engine) (a b now : string)
    (w : World) :
  file_of fs (a +:+ ".json") <> file_of fs (b +:+ ".json") ->
  fst (load_game fs eng b (snd (save_game fs eng a now w))) = fst (load_game fs eng b w) /\
  state (snd (load_game fs eng b (snd (save_game fs eng a now w))))
  = state (snd (load_game fs eng b w)).
Proof.
  intros Hne. rewrite save_game_result, !load_game_result.
  destruct (file_of fs (a +:+ ".json")) as [fa |] eqn:Hfa;
    [destruct (writable fs (a +:+ ".json")) |];
    cbn [snd files state events];
    destruct (file_of fs (b +:+ ".json")) as [fb |] eqn:Hfb; try (now split).
  - rewrite lookup_insert_ne by congruence.
    destruct (files w !! fb) as [doc |]; [| now split].
    destruct (res_bind (getitem doc "state") from_dict); now split.
  - destruct (files w !! fb) as [doc |]; [| now split].
    destruct (res_bind (getitem doc "state") from_dict); now split.
  - destruct (files w !! fb) as [doc |]; [| now split].
    destruct (res_bind (getitem doc "state") from_dict); now split.
Qed.

Lemma save_leaves_other_slots_witness :
  fst (load_game demo_fs demo_engine "morning"
         (snd (save_game demo_fs demo_engine "evening" "2024-01-01T20:00:00"
                 (snd (make_choice demo_int demo_engine 0
                         (snd (save_game demo_fs demo_engine "morning" "2024-01-01T08:00:00"
                                 fresh_world)))))))
  = fst (load_game demo_fs demo_engine "morning"
           (snd (make_choice demo_int demo_engine 0
                   (snd (save_game demo_fs demo_engine "morning" "2024-01-01T08:00:00"
                           fresh_world))))) /\
  state (snd (load_game demo_fs demo_engine "morning"
         (snd (save_game demo_fs demo_engine "evening" "2024-01-01T20:00:00"
                 (snd (make_choice demo_int demo_engine 0
                         (snd (save_game demo_fs demo_engine "morning" "2024-01-01T08:00:00"
                                 fresh_world))))))))
  = state (snd (load_game demo_fs demo_engine "morning"
           (snd (make_choice demo_int demo_engine 0
                   (snd (save_game demo_fs demo_engine "morning" "2024-01-01T08:00:00"
                           fresh_world)))))).
Proof. apply save_leaves_other_slots. discriminate. Defined.

(** The morning save is still what the slot loads after the evening one:
    the state of the fresh game, not the one the choice led to. *)
Example morning_slot_kept :
  load_game demo_fs demo_engine "morning"
    (snd (save_game demo_fs demo_engine "evening" "2024-01-01T20:00:00"
            (snd (make_choice demo_int demo_engine 0
                    (snd (save_game demo_fs demo_engine "morning" "2024-01-01T08:00:00"
                            fresh_world))))))
  = (Ok true,
     {| state := default_state;
        events := [OnSave "morning"; OnSceneExit "start";
                   OnChoice (mkChoice "Climb the wall" "pit" JNull
                               (JDict [("hp_change", JInt (-20)); ("victory", JBool true)])
                               (JInt 10) JNull JNull JNull);
                   OnSceneEnter "victory" "game_over";
                   OnSave "evening"; OnLoad "morning"];
        files := files (snd (save_game demo_fs demo_engine "evening" "2024-01-01T20:00:00"
                    (snd (make_choice demo_int demo_engine 0
                            (snd (save_game demo_fs demo_engine "morning"
                                    "2024-01-01T08:00:00" fresh_world)))))) |}).
Proof. vm_compute. reflexivity. Qed.

(** Two names of one file: after a save to "./a", the slot "a", which
    had no save, loads. *)
Example dot_slash_is_the_same_slot :
  fst (load_game demo_fs demo_engine "a" fresh_world) = Ok false /\
  fst (load_game demo_fs demo_engine "a"
         (snd (save_game demo_fs demo_engine "./a" "2024-01-01T20:00:00" fresh_world)))
  = Ok true.
Proof. split; vm_compute; reflexivity. Qed.

(** X20: a load is all or nothing.  When [load_game] does not return
    [True] (no file for the slot, or an exception while rebuilding the
    state), the world is exactly as before; when it returns [True], the new
    player state is the one rebuilt from the file and owes nothing to the
    state it replaces. *)
Theorem load_game_all_or_nothing (fs : FileSystem) (eng : Engine) (slot_name : string)
    (w : World) :
  (fst (load_game fs eng slot_name w) <> Ok true -> snd (load_game fs eng slot_name w) = w) /\
  (forall st0,
     fst (load_game fs eng slot_name (with_state w st0)) = fst (load_game fs eng slot_name w) /\
     (fst (load_game fs eng slot_name w) = Ok true ->
      state (snd (load_game fs eng slot_name (with_state w st0)))
      = state (snd (load_game fs eng slot_name w)))).
Proof.
  split.
  - rewrite load_game_result.
    destruct (file_of fs (slot_name +:+ ".json")) as [f |]; [| reflexivity].
    destruct (files w !! f) as [doc |]; [| reflexivity].
    destruct (res_bind (getitem doc "state") from_dict); [| reflexivity].
    intros H. now contradiction H.
  - intros st0. rewrite !load_game_result. cbn [files with_state].
    destruct (file_of fs (slot_name +:+ ".json")) as [f |];
      [| split; [reflexivity | discriminate]].
    destruct (files w !! f) as [doc |]; [| split; [reflexivity | discriminate]].
    destruct (res_bind (getitem doc "state") from_dict); split; try reflexivity; discriminate.
Qed.

Lemma res_bind_ok {A B : Type} (r : res A) (f : A -> res B) (b : B) :
  res_bind r f = Ok b -> exists a, r = Ok a /\ f a = Ok b.
Proof. destruct r as [a | e]; [intros H; now exists a | discriminate]. Qed.

Lemma field_or_absent {A : Type} (d : list (string * json)) (k : string)
    (dflt x : A) (decode : json -> res A) :
  field_or d k dflt decode = Ok x -> assoc_get k d = None -> x = dflt.
Proof. unfold field_or. intros H Hk. rewrite Hk in H. now injection H. Qed.

(** X21: when [from_dict] rebuilds a state from a saved mapping, every
    field the mapping does not have takes its dataclass default: the
    current scene "start" (it is not a required field), hp 100, morality
    50, size 100, knowledge 0, gold 0, and empty inventory, achievements,
    flags, history and custom stats. *)
Theorem from_dict_defaults (d : list (string * json)) (st : GameState) :
  from_dict (JDict d) = Ok st ->
  (assoc_get "current_scene" d = None -> current_scene st = "start") /\
  (assoc_get "hp" d = None -> hp st = 100) /\
  (assoc_get "morality" d = None -> morality st = 50) /\
  (assoc_get "size" d = None -> size st = 100) /\
  (assoc_get "knowledge" d = None -> knowledge st = 0) /\
  (assoc_get "gold" d = None -> gold st = 0) /\
  (assoc_get "inventory" d = None -> inventory st = []) /\
  (assoc_get "achievements" d = None -> achievements st = []) /\
  (assoc_get "flags" d = None -> flags st = ∅) /\
  (assoc_get "history" d = None -> history st = []) /\
  (assoc_get "stats" d = None -> stats st = ∅).
Proof.
  unfold from_dict. intros H.
  destruct (forallb _ d); [| discriminate H].
  apply res_bind_ok in H as (f1 & H1 & H).
  apply res_bind_ok in H as (f2 & H2 & H).
  apply res_bind_ok in H as (f3 & H3 & H).
  apply res_bind_ok in H as (f4 & H4 & H).
  apply res_bind_ok in H as (f5 & H5 & H).
  apply res_bind_ok in H as (f6 & H6 & H).
  apply res_bind_ok in H as (f7 & H7 & H).
  apply res_bind_ok in H as (f8 & H8 & H).
  apply res_bind_ok in H as (f9 & H9 & H).
  apply res_bind_ok in H as (f10 & H10 & H).
  apply res_bind_ok in H as (f11 & H11 & H).
  injection H as <-. cbn [current_scene hp morality size knowledge gold inventory
                          achievements flags history stats].
  repeat split; intros Habs.
  - exact (field_or_absent _ _ _ _ _ H1 Habs).
  - exact (field_or_absent _ _ _ _ _ H2 Habs).
  - exact (field_or_absent _ _ _ _ _ H3 Habs).
  - exact (field_or_absent _ _ _ _ _ H4 Habs).
  - exact (field_or_absent _ _ _ _ _ H5 Habs).
  - exact (field_or_absent _ _ _ _ _ H6 Habs).
  - exact (field_or_absent _ _ _ _ _ H7 Habs).
  - exact (field_or_absent _ _ _ _ _ H8 Habs).
  - exact (field_or_absent _ _ _ _ _ H9 Habs).
  - exact (field_or_absent _ _ _ _ _ H10 Habs).
  - exact (field_or_absent _ _ _ _ _ H11 Habs).
Qed.

Lemma from_dict_defaults_witness :
  from_dict (JDict [("hp", JInt 40)]) = Ok (set_hp 40 default_state) /\
  current_scene (set_hp 40 default_state) = "start" /\
  morality (set_hp 40 default_state) = 50.
Proof.
  destruct (from_dict_defaults [("hp", JInt 40)] (set_hp 40 default_state) eq_refl)
    as (Hscene & _ & Hmorality & _).
  split; [reflexivity |]. split; [now apply Hscene | now apply Hmorality].
Defined.

(** X22: a save file whose state mapping has a key that is no field
    of [GameState] cannot be loaded: [load_game] raises [TypeError] (it
    does not return [False]) and leaves the world unchanged. *)
Theorem load_game_rejects_unknown_field (fs : FileSystem) (eng : Engine)
    (slot_name f : string) (w : World)
    (doc : json) (d : list (string * json)) (k : string) (v : json) :
  file_of fs (slot_name +:+ ".json") = Some f ->
  files w !! f = Some doc ->
  getitem doc "state" = Ok (JDict d) ->
  In (k, v) d ->
  ~ In k field_names ->
  load_game fs eng slot_name w = (Raise TypeError, w).
Proof.
  intros Hf Hfile Hstate Hin Hk. rewrite load_game_result, Hf, Hfile, Hstate.
  cbn [res_bind]. unfold from_dict.
  assert (Hall : forallb (fun kv => existsb (String.eqb (fst kv)) field_names) d = false).
  { apply not_true_is_false. intros Hall. rewrite forallb_forall in Hall.
    specialize (Hall (k, v) Hin). apply existsb_exists in Hall as (k' & Hk' & Heq).
    apply String.eqb_eq in Heq. simpl in Heq. subst k'. exact (Hk Hk'). }
  now rewrite Hall.
Qed.

Lemma load_game_rejects_unknown_field_witness :
  load_game demo_fs demo_engine "old"
    {| state := default_state; events := [];
       files := {[ "old.json" := JDict [("state", JDict [("hp", JInt 10); ("mana", JInt 3)])] ]} |}
  = (Raise TypeError,
     {| state := default_state; events := [];
        files := {[ "old.json" := JDict [("state", JDict [("hp", JInt 10); ("mana", JInt 3)])] ]} |}).
Proof.
  apply (load_game_rejects_unknown_field demo_fs demo_engine "old" "old.json" _
           (JDict [("state", JDict [("hp", JInt 10); ("mana", JInt 3)])])
           [("hp", JInt 10); ("mana", JInt 3)] "mana" (JInt 3)).
  - reflexivity.
  - reflexivity.
  - reflexivity.
  - simpl. tauto.
  - simpl. intros H. repeat (destruct H as [H | H]; [discriminate H |]). exact H.
Defined.

(** ** A scene that is not in the script *)

(** X23: when the current scene is not in the scene table (such as
    after a 'game_over' or 'victory' jump in a script that declares no
    scene of that name), nothing is available: [get_available_choices]
    returns the empty list, [render_scene] the scene-not-found result, and
    [make_choice] returns [False] for every index; none changes the world. *)
Theorem unknown_scene_is_a_dead_end ios eng (w : World) :
  scenes eng !! current_scene (state w) = None ->
  get_available_choices eng w = (Ok [], w) /\
  render_scene eng w = (Ok SceneNotFound, w) /\
  forall choice_index, make_choice ios eng choice_index w = (Ok false, w).
Proof.
  intros Hscene.
  assert (Hav : get_available_choices eng w = (Ok [], w)).
  { cbv [get_available_choices bind get_current_scene get_state ret]. now rewrite Hscene. }
  split; [exact Hav |]. split.
  - cbv [render_scene bind get_current_scene get_state ret]. now rewrite Hscene.
  - intros idx. apply (rejected_index_returns_false ios eng idx [] w Hav).
    simpl. lia.
Qed.

Lemma unknown_scene_is_a_dead_end_witness :
  get_available_choices demo_engine (snd (make_choice demo_int demo_engine 0 fresh_world))
  = (Ok [], snd (make_choice demo_int demo_engine 0 fresh_world)) /\
  render_scene demo_engine (snd (make_choice demo_int demo_engine 0 fresh_world))
  = (Ok SceneNotFound, snd (make_choice demo_int demo_engine 0 fresh_world)) /\
  forall choice_index,
    make_choice demo_int demo_engine choice_index
      (snd (make_choice demo_int demo_engine 0 fresh_world))
    = (Ok false, snd (make_choice demo_int demo_engine 0 fresh_world)).
Proof. apply unknown_scene_is_a_dead_end. reflexivity. Defined.

(** ** The scene table *)

Lemma decode_all_ok {A B : Type} (f : A -> res B) (l : list A) (ys : list B) :
  decode_all f l = Ok ys -> forall x, In x l -> exists y, f x = Ok y /\ In y ys.
Proof.
  revert ys. induction l as [| x0 l IH]; intros ys H x Hin; [destruct Hin |].
  simpl in H. apply res_bind_ok in H as (y0 & Hy0 & H).
  apply res_bind_ok in H as (ys' & Hys' & H). injection H as <-.
  destruct Hin as [<- | Hin].
  - exists y0. split; [exact Hy0 | now left].
  - destruct (IH ys' Hys' x Hin) as (y & Hy & Hyin). exists y. split; [exact Hy | now right].
Qed.

Lemma find_app_first {A : Type} (f : A -> bool) (l l' : list A) :
  List.find f (l ++ l') =
  match List.find f l with
  | Some x => Some x
  | None => List.find f l'
  end.
Proof.
  induction l as [| x l IH]; [reflexivity |]. simpl. now destruct (f x).
Qed.

Lemma load_scenes_from_result (l : list json) (table m : gmap string Scene) :
  load_scenes_from l table = Ok m ->
  exists scs,
    decode_all load_scene l = Ok scs /\
    forall i, m !! i =
              match List.find (fun sc => String.eqb (id sc) i) (rev scs) with
              | Some sc => Some sc
              | None => table !! i
              end.
Proof.
  revert table. induction l as [| sd l IH]; intros table H.
  - injection H as <-. exists []. split; reflexivity.
  - simpl in H. apply res_bind_ok in H as (sc & Hsc & H).
    destruct (IH _ H) as (scs & Hscs & Hlook).
    exists (sc :: scs). split; [simpl; now rewrite Hsc, Hscs |].
    intros i. rewrite Hlook. simpl rev. rewrite find_app_first.
    destruct (List.find (fun sc0 => String.eqb (id sc0) i) (rev scs)); [reflexivity |].
    simpl. destruct (String.eqb_spec (id sc) i) as [<- | Hne].
    + apply lookup_insert_eq.
    + now apply lookup_insert_ne.
Qed.

(** X24: when [_load_scenes] succeeds on scenes given as a list, the
    table answers a scene id with the last scene of the script that has
    this id (an earlier scene with the same id is dropped) and with nothing
    for an id that no scene has. *)
Theorem load_scenes_last_id_wins (script : list (string * json)) (l : list json)
    (m : gmap string Scene) :
  assoc_get "scenes" script = Some (JList l) ->
  load_scenes script = Ok m ->
  exists scs,
    decode_all load_scene l = Ok scs /\
    forall i, m !! i = List.find (fun sc => String.eqb (id sc) i) (rev scs).
Proof.
  intros Hl H. unfold load_scenes in H. rewrite Hl in H. simpl in H.
  destruct (load_scenes_from_result l ∅ m H) as (scs & Hscs & Hlook).
  exists scs. split; [exact Hscs |].
  intros i. rewrite Hlook. destruct (List.find _ (rev scs)); [reflexivity |].
  apply lookup_empty.
Qed.

Lemma load_scenes_last_id_wins_witness :
  exists scs,
    decode_all load_scene
      (match assoc_get "scenes" demo_script with Some (JList l) => l | _ => [] end) = Ok scs /\
    forall i,
      match load_scenes demo_script with Ok m => m | Raise _ => ∅ end !! i
      = List.find (fun sc => String.eqb (id sc) i) (rev scs).
Proof.
  apply (load_scenes_last_id_wins demo_script); reflexivity.
Defined.

(** In the demo script the second "camp" is the one the table keeps. *)
Example demo_script_camp :
  description <$> (match load_scenes demo_script with Ok m => m | Raise _ => ∅ end !! "camp")
  = Some "A warm camp.".
Proof. reflexivity. Qed.

Lemma getitem_ok (c : json) (k : string) (v : json) :
  getitem c k = Ok v -> exists d, c = JDict d /\ assoc_get k d = Some v.
Proof.
  destruct c; try discriminate. simpl.
  destruct (assoc_get k d) as [v' |] eqn:Hk; [| discriminate].
  intros [= <-]. now exists d.
Qed.

Lemma load_choice_ok (cd : json) (c : Choice) :
  load_choice cd = Ok c ->
  exists d, cd = JDict d /\
    assoc_get "text" d = Some (JStr (text c)) /\
    assoc_get "next_scene" d = Some (JStr (next_scene c)).
Proof.
  unfold load_choice. intros H.
  apply res_bind_ok in H as (t & Ht & H).
  apply res_bind_ok in H as (n & Hn & H). injection H as <-.
  apply res_bind_ok in Ht as (vt & Hvt & Ht).
  apply res_bind_ok in Hn as (vn & Hvn & Hn).
  apply getitem_ok in Hvt as (d & -> & Hvt).
  apply getitem_ok in Hvn as (d' & [= <-] & Hvn).
  destruct vt; try discriminate Ht. destruct vn; try discriminate Hn.
  injection Ht as <-. injection Hn as <-. now exists d.
Qed.

(** X25: a script loads only if it is complete: when [_load_scenes]
    succeeds, every scene of the list is a mapping with 'id', 'title' and
    'description', and every entry of a scene's 'choices' list is a mapping
    with 'text' and 'next_scene'.  A scene or choice lacking one of them
    makes the engine's construction fail. *)
Theorem load_scenes_needs_mandatory_fields (script : list (string * json)) (l : list json)
    (m : gmap string Scene) :
  assoc_get "scenes" script = Some (JList l) ->
  load_scenes script = Ok m ->
  forall sd, In sd l ->
    exists d, sd = JDict d /\
      is_Some (assoc_get "id" d) /\
      is_Some (assoc_get "title" d) /\
      is_Some (assoc_get "description" d) /\
      forall cl cd, assoc_get "choices" d = Some (JList cl) -> In cd cl ->
        exists c, cd = JDict c /\
          is_Some (assoc_get "text" c) /\ is_Some (assoc_get "next_scene" c).
Proof.
  intros Hl H sd Hin. unfold load_scenes in H. rewrite Hl in H. simpl in H.
  destruct (load_scenes_from_result l ∅ m H) as (scs & Hscs & _).
  destruct (decode_all_ok _ _ _ Hscs sd Hin) as (sc & Hsc & _).
  unfold load_scene in Hsc. destruct sd as [| | | | | d]; try discriminate Hsc.
  exists d. split; [reflexivity |].
  apply res_bind_ok in Hsc as (choice_list & Hiter & Hsc).
  apply res_bind_ok in Hsc as (cs & Hcs & Hsc).
  apply res_bind_ok in Hsc as (i & Hi & Hsc).
  apply res_bind_ok in Hsc as (t & Ht & Hsc).
  apply res_bind_ok in Hsc as (descr & Hd & _).
  apply res_bind_ok in Hi as (vi & Hvi & _).
  apply res_bind_ok in Ht as (vt & Hvt & _).
  apply res_bind_ok in Hd as (vd & Hvd & _).
  apply getitem_ok in Hvi as (d1 & [= <-] & Hvi).
  apply getitem_ok in Hvt as (d2 & [= <-] & Hvt).
  apply getitem_ok in Hvd as (d3 & [= <-] & Hvd).
  repeat split; eauto.
  intros cl cd Hcl Hcd. rewrite Hcl in Hiter. simpl in Hiter. injection Hiter as <-.
  destruct (decode_all_ok _ _ _ Hcs cd Hcd) as (c & Hc & _).
  apply load_choice_ok in Hc as (dc & -> & Htext & Hnext).
  exists dc. repeat split; eauto.
Qed.

Lemma load_scenes_needs_mandatory_fields_witness :
  exists d,
    JDict [("id", JStr "road"); ("title", JStr "Road"); ("description", JStr "A long road.")]
    = JDict d /\
    is_Some (assoc_get "id" d) /\
    is_Some (assoc_get "title" d) /\
    is_Some (assoc_get "description" d) /\
    forall cl cd, assoc_get "choices" d = Some (JList cl) -> In cd cl ->
      exists c, cd = JDict c /\
        is_Some (assoc_get "text" c) /\ is_Some (assoc_get "next_scene" c).
Proof.
  apply (load_scenes_needs_mandatory_fields demo_script
           (match assoc_get "scenes" demo_script with Some (JList l) => l | _ => [] end)
           (match load_scenes demo_script with Ok m => m | Raise _ => ∅ end)).
  - reflexivity.
  - reflexivity.
  - simpl. tauto.
Defined.

(** ** Removing an item *)

Lemma py_eq_str_eq (el : json) (s : string) : py_eq el (JStr s) = true -> el = JStr s.
Proof.
  destruct el; try discriminate. simpl. intros H. apply String.eqb_eq in H. now subst.
Qed.

Lemma py_eq_str_sym (el : json) (s : string) : py_eq (JStr s) el = py_eq el (JStr s).
Proof. destruct el; try reflexivity. simpl. apply String.eqb_sym. Qed.

Lemma py_in_list_str (s : string) (l : list json) :
  py_in_list (JStr s) l = existsb (fun el => py_eq el (JStr s)) l.
Proof.
  unfold py_in_list. induction l as [| el l IH]; [reflexivity |].
  cbn [existsb]. now rewrite py_eq_str_sym, IH.
Qed.

Lemma no_repeats_remove_str (s : string) (l : list json) :
  no_repeats l -> py_in_list (JStr s) (py_list_remove (JStr s) l) = false.
Proof.
  induction 1 as [| l x Hl IH Hx]; [reflexivity |].
  rewrite py_list_remove_app.
  destruct (existsb (fun el => py_eq el (JStr s)) l) eqn:Hfound.
  - rewrite py_in_list_str, existsb_app, <- py_in_list_str, IH.
    change (existsb (fun el => py_eq el (JStr s)) [x]) with (py_eq x (JStr s) || false).
    destruct (py_eq x (JStr s)) eqn:Hxs; [| reflexivity].
    exfalso. apply py_eq_str_eq in Hxs. subst x.
    rewrite py_in_list_str in Hx. congruence.
  - change (py_list_remove (JStr s) [x]) with (if py_eq x (JStr s) then [] else [x]).
    destruct (py_eq x (JStr s)) eqn:Hxs.
    + rewrite app_nil_r. now rewrite py_in_list_str.
    + rewrite py_in_list_str, existsb_app, Hfound.
      change (existsb (fun el => py_eq el (JStr s)) [x]) with (py_eq x (JStr s) || false).
      now rewrite Hxs.
Qed.

(** X26: from an inventory without repeats, an effect set that has
    'remove_item' with a string, and neither 'add_item' nor 'add_items',
    leaves the item out of the inventory when [_apply_effects] returns, and
    a 'has_item' requirement for it is then refused. *)
Theorem removed_item_fails_requirement ios eng (d : list (string * json))
    (s : string) (w w' : World) :
  no_repeats (inventory (state w)) ->
  assoc_get "remove_item" d = Some (JStr s) ->
  assoc_get "add_item" d = None ->
  assoc_get "add_items" d = None ->
  apply_effects ios eng (JDict d) w = (Ok tt, w') ->
  py_in_list (JStr s) (inventory (state w')) = false /\
  check_requirements (JDict [("has_item", JStr s)]) w' = (Ok false, w').
Proof.
  intros Hnr Hrm Hadd Hadds H.
  assert (HQ : py_in_list (JStr s) (inventory (state w')) = false).
  { unfold apply_effects in H.
    apply bind_inv in H as ([] & w1 & H1 & H).
    assert (Hw1 : py_in_list (JStr s) (inventory (state w1)) = false).
    { revert H1.
      cbv [effects_items if_key bind lift key_in getitem get_state when modify_state ret].
      rewrite Hadd, Hadds, Hrm.
      destruct (py_in_list (JStr s) (inventory (state w))) eqn:Hin; intros [= <-].
      - simpl. now apply no_repeats_remove_str.
      - exact Hin. }
    apply bind_inv in H as ([] & w2 & H2 & H).
    apply (preserves_run (fun w => py_in_list (JStr s) (inventory (state w)) = false)) in H2;
      [| apply effects_stats_preserves; intros w0 x Hw0; try intros _; exact Hw0 | exact Hw1].
    apply bind_inv in H as ([] & w3 & H3 & H).
    apply (preserves_run (fun w => py_in_list (JStr s) (inventory (state w)) = false)) in H3;
      [| apply effects_custom_stats_preserves; intros w0 x Hw0; exact Hw0 | exact H2].
    apply bind_inv in H as ([] & w4 & H4 & H).
    apply (preserves_run (fun w => py_in_list (JStr s) (inventory (state w)) = false)) in H4;
      [| apply effects_flags_preserves; intros w0 x Hw0; exact Hw0 | exact H3].
    apply bind_inv in H as ([] & w5 & H5 & H).
    apply (preserves_run (fun w => py_in_list (JStr s) (inventory (state w)) = false)) in H5;
      [| apply effects_achievements_preserves; intros w0 x Hw0; exact Hw0 | exact H4].
    apply (preserves_run (fun w => py_in_list (JStr s) (inventory (state w)) = false)) in H;
      [exact H | apply effects_special_preserves; intros w0 x Hw0; exact Hw0 | exact H5]. }
  split; [exact HQ |].
  unfold check_requirements. change (negb (truthy (JDict [("has_item", JStr s)]))) with false.
  cbv iota. unfold and_then at 1, bind at 1. rewrite req_check_result.
  simpl assoc_get. unfold test_has_item. now rewrite HQ.
Qed.

Lemma removed_item_fails_requirement_witness :
  py_in_list (JStr "key")
    (inventory (state (snd (apply_effects demo_int demo_engine
       (JDict [("remove_item", JStr "key")])
       (with_state fresh_world (set_inventory [JStr "rope"; JStr "key"] default_state))))))
  = false /\
  check_requirements (JDict [("has_item", JStr "key")])
    (snd (apply_effects demo_int demo_engine
       (JDict [("remove_item", JStr "key")])
       (with_state fresh_world (set_inventory [JStr "rope"; JStr "key"] default_state))))
  = (Ok false,
     snd (apply_effects demo_int demo_engine
       (JDict [("remove_item", JStr "key")])
       (with_state fresh_world (set_inventory [JStr "rope"; JStr "key"] default_state)))).
Proof.
  apply (removed_item_fails_requirement demo_int demo_engine
           [("remove_item", JStr "key")] "key"
           (with_state fresh_world (set_inventory [JStr "rope"; JStr "key"] default_state))).
  - simpl. apply (no_repeats_snoc [JStr "rope"]); [| reflexivity].
    apply (no_repeats_snoc []); [constructor | reflexivity].
  - reflexivity.
  - reflexivity.
  - reflexivity.
  - vm_compute. reflexivity.
Defined.

(** ** A 'flag' requirement that is a single scalar *)

Lemma and_then_req_result (k : string) (d : list (string * json)) test
    (rest : M bool) (w : World) :
  (req_check k (JDict d) test &> rest) w =
  match (match assoc_get k d with Some v => test v (state w) | None => Ok true end) with
  | Ok true => rest w
  | Ok false => (Ok false, w)
  | Raise e => (Raise e, w)
  end.
Proof.
  unfold and_then, bind. rewrite req_check_result.
  destruct (assoc_get k d) as [v |]; [| reflexivity].
  destruct (test v (state w)) as [[|] | e]; reflexivity.
Qed.

Lemma flag_long_string_raises (d : list (string * json)) (s : string)
    (rest : M bool) (w : World) :
  assoc_get "flag" d = Some (JStr s) -> String.length s <> 2%nat ->
  (req_check "flag" (JDict d) test_flag &> rest) w = (Raise ValueError, w).
Proof.
  intros Hget Hlen. rewrite and_then_req_result, Hget.
  destruct s as [| c1 [| c2 [| c3 s']]]; try reflexivity.
  now contradiction Hlen.
Qed.

(** Two requirement sets that differ only in how they write the pair of
    'flag', as a two-character string or as the list of its two
    characters, are evaluated alike. *)
Lemma flag_two_characters_as_pair (d d' : list (string * json)) (c1 c2 : ascii) (w : World) :
  assoc_get "flag" d = Some (JStr (String c1 (String c2 EmptyString))) ->
  assoc_get "flag" d' = Some (JList [JStr (String c1 EmptyString); JStr (String c2 EmptyString)]) ->
  (forall k, k <> "flag" -> assoc_get k d' = assoc_get k d) ->
  check_requirements (JDict d) w = check_requirements (JDict d') w.
Proof.
  intros Hd Hd' Hother. unfold check_requirements.
  rewrite (bound_key_truthy d "flag" _ Hd), (bound_key_truthy d' "flag" _ Hd').
  change (negb true) with false. cbv iota.
  cbn [stat_range_checks range_stats String.append].
  rewrite !and_then_req_result.
  cbv [and_then check_visited_scene bind lift key_in ret get_state].
  repeat match goal with
         | |- context [assoc_get ?k d'] => rewrite (Hother k) by discriminate
         end.
  rewrite Hd, Hd'. reflexivity.
Qed.

(** C3, as the code has it: a 'flag' requirement given a single scalar
    does not fail closed.  A scalar that cannot be iterated (null, a
    boolean, an integer) and a string that has not exactly two characters
    never evaluate to true, but not to false either: once the flag test is
    reached (no item test comes before it) evaluation raises [TypeError],
    respectively [ValueError], and leaves the state alone.  A string of
    exactly two characters is unpacked into them: the set is evaluated as
    if 'flag' were the pair of the two one-character strings, so it is
    granted when the flag named by the first holds the second. *)
Theorem scalar_flag_not_fail_closed (d : list (string * json)) (v : json) (w : World) :
  assoc_get "flag" d = Some v ->
  (is_plain_scalar v = true ->
     fst (check_requirements (JDict d) w) <> Ok true /\
     (assoc_get "has_item" d = None -> assoc_get "has_any_item" d = None ->
      assoc_get "has_all_items" d = None ->
      check_requirements (JDict d) w = (Raise TypeError, w))) /\
  (forall s, v = JStr s -> String.length s <> 2%nat ->
     fst (check_requirements (JDict d) w) <> Ok true /\
     (assoc_get "has_item" d = None -> assoc_get "has_any_item" d = None ->
      assoc_get "has_all_items" d = None ->
      check_requirements (JDict d) w = (Raise ValueError, w))) /\
  (forall c1 c2 d',
     v = JStr (String c1 (String c2 EmptyString)) ->
     assoc_get "flag" d' =
       Some (JList [JStr (String c1 EmptyString); JStr (String c2 EmptyString)]) ->
     (forall k, k <> "flag" -> assoc_get k d' = assoc_get k d) ->
     check_requirements (JDict d) w = check_requirements (JDict d') w).
Proof.
  intros Hget. split; [| split].
  - intros Hv. now apply (scalar_flag_never_granted d v w).
  - intros s -> Hlen. unfold check_requirements.
    rewrite (bound_key_truthy d "flag" _ Hget). change (negb true) with false. cbv iota.
    split.
    + revert w. do 3 apply and_then_tail_not_true.
      intros w. rewrite (flag_long_string_raises d s _ w Hget Hlen). discriminate.
    + intros H1 H2 H3. rewrite !req_check_absent by assumption.
      now apply (flag_long_string_raises d s).
  - intros c1 c2 d' -> Hd' Hother. now apply (flag_two_characters_as_pair d d' c1 c2).
Qed.

Lemma scalar_flag_not_fail_closed_witness :
  check_requirements (JDict [("flag", JStr "ab"); ("hp_min", JInt 1)]) flagged_world
  = check_requirements (JDict [("hp_min", JInt 1); ("flag", JList [JStr "a"; JStr "b"])])
      flagged_world.
Proof.
  destruct (scalar_flag_not_fail_closed
              [("flag", JStr "ab"); ("hp_min", JInt 1)] (JStr "ab") flagged_world eq_refl)
    as (_ & _ & Hpair).
  apply (Hpair "a"%char "b"%char); [reflexivity | reflexivity |].
  intros k Hk. simpl.
  destruct (String.eqb_spec k "hp_min") as [-> | Hhp]; [reflexivity |].
  destruct (String.eqb_spec k "flag") as [-> | Hflag]; [now contradiction Hk | reflexivity].
Defined.

(** C3 as stated fails on each kind of scalar: the number 5 raises
    [TypeError]; the string "abc" raises [ValueError]; and with the flag
    "a" holding "b", the string "ab" is granted.  None returns false. *)
Lemma scalar_flag_not_closed :
  (fst (check_requirements (JDict [("flag", JInt 5)]) fresh_world) = Raise TypeError /\
   fst (check_requirements (JDict [("flag", JInt 5)]) fresh_world) <> Ok false) /\
  (fst (check_requirements (JDict [("flag", JStr "abc")]) fresh_world) = Raise ValueError /\
   fst (check_requirements (JDict [("flag", JStr "abc")]) fresh_world) <> Ok false) /\
  (fst (check_requirements (JDict [("flag", JStr "ab")]) flagged_world) = Ok true /\
   fst (check_requirements (JDict [("flag", JStr "ab")]) flagged_world) <> Ok false).
Proof.
  repeat split; try (vm_compute; reflexivity); vm_compute; discriminate.
Qed.

(** ** An index out of range when the choices cannot be listed *)

(** C6 as stated fails: when a requirement of the current scene raises,
    [make_choice] raises too instead of returning [False], also for a
    negative index.  In the first script the choice gated on 'flag': 5
    raises [TypeError] at the very first call; in the second the choice
    gated on 'visited_scene' raises [NameError] after one move. *)
Lemma out_of_range_index_can_raise :
  (make_choice demo_int gated_engine (-1) fresh_world = (Raise TypeError, fresh_world) /\
   fst (make_choice demo_int gated_engine (-1) fresh_world) <> Ok false) /\
  (make_choice demo_int crossroads_engine (-1) visited_world = (Raise NameError, visited_world) /\
   fst (make_choice demo_int crossroads_engine (-1) visited_world) <> Ok false).
Proof.
  repeat split; try (vm_compute; reflexivity); vm_compute; discriminate.
Qed.
